(** * Expense Tracker BFF: error normalisation, validation, routes

    A shallow embedding of the Backend-For-Frontend service
    (src/bffapi): the service client with its error normaliser
    (utils/serviceClient.ts, and the serviceClient.js that the route
    files load), the validation middleware and its schemas
    (middleware/validation.ts), the bills routes (routes/bills), the
    bill-parser routes (routes/billParser) and the error middleware
    of the application (index.ts).

    Upstream HTTP traffic is an oracle: every axios call either
    resolves with the response body or rejects with a thrown value,
    and every client call is appended to a log, so that "which
    upstream calls were made, in which order, with which payload" is
    a statement about the log. *)

From Stdlib Require Import String Ascii List Bool ZArith QArith Qround Lia.
From Stdlib Require Import DecimalString DecimalFacts DecimalPos.
Import ListNotations.

Set Warnings "-register-all".

Local Open Scope Z_scope.
Local Open Scope string_scope.

(* ================================================================== *)
(** ** JavaScript values as they travel through the service *)
(* ================================================================== *)

Module JS.

(** A JSON value: what [express.json()] puts in [req.body] and what
    axios puts in [response.data].  Numbers are the rationals that
    JSON numerals denote. *)
Inductive json : Type :=
| JNull
| JBool (b : bool)
| JNum (n : Q)
| JStr (s : string)
| JArr (xs : list json)
| JObj (fields : list (string * json)).

(** [x ? .. : ..], [x || d], [x && y] all test this. *)
Definition truthy (v : json) : bool :=
  match v with
  | JNull => false
  | JBool b => b
  | JNum n => negb (Qeq_bool n 0)
  | JStr s => negb (s =? "")
  | JArr _ => true
  | JObj _ => true
  end.

Fixpoint assoc {A : Type} (k : string) (l : list (string * A)) : option A :=
  match l with
  | [] => None
  | (k', v) :: rest => if k' =? k then Some v else assoc k rest
  end.

(** Property read [v.k]; [None] is [undefined] (a missing key, or a
    value that has no such property). *)
Definition get (k : string) (v : json) : option json :=
  match v with
  | JObj fields => assoc k fields
  | _ => None
  end.

Definition keys (fields : list (string * json)) : list string :=
  map fst fields.

(** [s || d] on an optional string: [undefined] and [''] are falsy. *)
Definition or_default (s : option string) (d : string) : string :=
  match s with
  | Some v => if v =? "" then d else v
  | None => d
  end.

(** [xs.join(sep)] *)
Fixpoint join (sep : string) (xs : list string) : string :=
  match xs with
  | [] => ""
  | [x] => x
  | x :: rest => x ++ sep ++ join sep rest
  end.

(** [s.startsWith(p)] *)
Definition startsWith (p s : string) : bool := String.prefix p s.

(** [s.split(c)[0]]: the part of [s] before the first [c]. *)
Fixpoint split_head (c : ascii) (s : string) : string :=
  match s with
  | EmptyString => EmptyString
  | String a rest => if Ascii.eqb a c then EmptyString else String a (split_head c rest)
  end.

(** An optional string that is present and empty. *)
Definition blank (s : option string) : bool :=
  match s with
  | Some v => v =? ""
  | None => false
  end.

(** [p] holds of every character of [s]. *)
Fixpoint every (p : ascii -> bool) (s : string) : bool :=
  match s with
  | EmptyString => true
  | String c rest => p c && every p rest
  end.

(** The characters that [\d] and [\s] match, among the code units
    below 256 that strings are made of here: the ten digits; tab to
    carriage return, the space and the no-break space. *)
Definition is_digit (c : ascii) : bool :=
  let n := nat_of_ascii c in (48 <=? n)%nat && (n <=? 57)%nat.

Definition is_space (c : ascii) : bool :=
  let n := nat_of_ascii c in
  ((9 <=? n)%nat && (n <=? 13)%nat) || (n =? 32)%nat || (n =? 160)%nat.

(** The property name of an array index. *)
Definition index_key (n : nat) : string :=
  NilZero.string_of_uint (Nat.to_uint n).

Fixpoint indexed {A : Type} (i : nat) (xs : list A) : list (string * A) :=
  match xs with
  | [] => []
  | x :: rest => (index_key i, x) :: indexed (S i) rest
  end.

Fixpoint characters (s : string) : list json :=
  match s with
  | EmptyString => []
  | String c rest => JStr (String c EmptyString) :: characters rest
  end.

(** The object literal [{...v}]: the own enumerable properties of
    [v].  An object gives its members, an array and a string their
    indexed elements, every other value nothing. *)
Definition spread (v : json) : json :=
  match v with
  | JObj fields => JObj fields
  | JArr xs => JObj (indexed 0 xs)
  | JStr s => JObj (indexed 0 (characters s))
  | _ => JObj []
  end.

End JS.
Import JS.

(* ================================================================== *)
(** ** types/index.ts *)
(* ================================================================== *)

(** Every interface comes with the JSON text it has on the wire
    ([JSON.stringify], which leaves out members that are
    [undefined]). *)
Definition member (k : string) (v : option json) : list (string * json) :=
  match v with
  | Some x => [(k, x)]
  | None => []
  end.

Module ParsedReceiptItem.
Record t : Type := mk { name : string; quantity : Q; price : Q }.
Definition to_json (i : t) : json :=
  JObj [("name", JStr (name i)); ("quantity", JNum (quantity i)); ("price", JNum (price i))].
End ParsedReceiptItem.

Module ParsedReceipt.
Record t : Type := mk {
  items : list ParsedReceiptItem.t;
  total : Q;
  currency : option string;
  date : option string;
  merchant : option string
}.
Definition to_json (r : t) : json :=
  JObj ([("items", JArr (map ParsedReceiptItem.to_json (items r)));
         ("total", JNum (total r))]
        ++ member "currency" (option_map JStr (currency r))
        ++ member "date" (option_map JStr (date r))
        ++ member "merchant" (option_map JStr (merchant r))).
End ParsedReceipt.

Module BillItemInput.
Record t : Type := mk {
  name : string;
  description : option string;
  amount : Q;
  quantity : option Q
}.
Definition to_json (i : t) : json :=
  JObj ([("name", JStr (name i))]
        ++ member "description" (option_map JStr (description i))
        ++ [("amount", JNum (amount i))]
        ++ member "quantity" (option_map JNum (quantity i))).
End BillItemInput.

Module BillInput.
Record t : Type := mk {
  title : string;
  description : option string;
  due_date : option string;
  paid : option bool;
  items : option (list BillItemInput.t)
}.
Definition to_json (b : t) : json :=
  JObj ([("title", JStr (title b))]
        ++ member "description" (option_map JStr (description b))
        ++ member "due_date" (option_map JStr (due_date b))
        ++ member "paid" (option_map JBool (paid b))
        ++ member "items"
             (option_map (fun l => JArr (map BillItemInput.to_json l)) (items b))).
End BillInput.

(** [CreatedBill] of utils/serviceClient.ts. *)
Module CreatedBill.
Record t : Type := mk { id : Q }.
Definition to_json (c : t) : json := JObj [("id", JNum (id c))].
End CreatedBill.

(** [ServiceError].  The interface types [message] as a string, but
    the normaliser stores the upstream body's [error] member there
    uncast, so it is whatever JSON value the upstream sent. *)
Module ServiceError.
Record t : Type := mk { statusCode : Z; message : json; details : json }.
End ServiceError.

(* ================================================================== *)
(** ** The clock: [new Date().toISOString()] *)
(* ================================================================== *)

Module Date.

(** A point in time by its UTC calendar fields. *)
Record t : Type := mk {
  year : Z;
  month : Z;         (* 1 .. 12 *)
  day : Z;           (* 1 .. 31 *)
  hours : Z;
  minutes : Z;
  seconds : Z;
  milliseconds : Z
}.

Definition digits (n : Z) : string :=
  NilZero.string_of_uint (N.to_uint (Z.to_N n)).

Fixpoint zeros (k : nat) : string :=
  match k with
  | O => ""
  | S k' => String "0" (zeros k')
  end.

(** Decimal numeral of [n >= 0], left-padded with zeros to [width]. *)
Definition pad (width : nat) (n : Z) : string :=
  let d := digits n in
  zeros (width - String.length d) ++ d.

(** Years 0 to 9999 print with four digits, all others with a sign
    and six digits. *)
Definition year_string (y : Z) : string :=
  if (0 <=? y)%Z && (y <=? 9999)%Z then pad 4 y
  else (if (y <? 0)%Z then "-" else "+") ++ pad 6 (Z.abs y).

Definition date_string (d : t) : string :=
  year_string (year d) ++ "-" ++ pad 2 (month d) ++ "-" ++ pad 2 (day d).

Definition toISOString (d : t) : string :=
  date_string d ++ "T" ++ pad 2 (hours d) ++ ":" ++ pad 2 (minutes d) ++ ":"
  ++ pad 2 (seconds d) ++ "." ++ pad 3 (milliseconds d) ++ "Z".

(** The characters of a date: digits, and the signs of a year. *)
Definition date_char (c : ascii) : bool :=
  is_digit c || Ascii.eqb c "-" || Ascii.eqb c "+".

(** Exactly [w] characters, all of them digits. *)
Definition digits_exactly (w : nat) (s : string) : bool :=
  (String.length s =? w)%nat && every is_digit s.

End Date.

(* ================================================================== *)
(** ** utils/serviceClient: the TypeScript source and its JavaScript twin *)
(* ================================================================== *)

Module ServiceClient.

Record AxiosResponse : Type := { status : Z; data : json }.

(** The [ClientRequest] object axios attaches once the request has
    been handed to the transport. *)
Inductive ClientRequest : Type := client_request.

Record AxiosError : Type := {
  response : option AxiosResponse;
  request : option ClientRequest;
  message : string
}.

(** The [unknown] value caught around an axios call. *)
Inductive Thrown : Type :=
| AxiosErr (e : AxiosError)        (* axios.isAxiosError(error) *)
| NativeErr (message : string)     (* error instanceof Error *)
| OtherVal (rendered : string).    (* anything else; [rendered] is String(error) *)

Definition description_of (error : Thrown) : string :=
  match error with
  | AxiosErr e => message e
  | NativeErr m => m
  | OtherVal s => s
  end.

Definition error_member (d : json) : json :=
  if truthy d
  then match get "error" d with
       | Some v => if truthy v then v else JStr "Service error"
       | None => JStr "Service error"
       end
  else JStr "Service error".

Definition connecting_error (error : Thrown) : ServiceError.t :=
  {| ServiceError.statusCode := 500;
     ServiceError.message := JStr "Error connecting to service";
     ServiceError.details := JStr (description_of error) |}.

Definition handleServiceError (error : Thrown) : ServiceError.t :=
  match error with
  | AxiosErr axiosError =>
      match response axiosError with
      | Some r =>
          {| ServiceError.statusCode := status r;
             ServiceError.message := error_member (data r);
             ServiceError.details := data r |}
      | None =>
          match request axiosError with
          | Some _ =>
              {| ServiceError.statusCode := 503;
                 ServiceError.message := JStr "Service unavailable";
                 ServiceError.details := JStr "No response received from service" |}
          | None => connecting_error error
          end
      end
  | _ => connecting_error error
  end.

(** *** utils/serviceClient.js *)

(** The JavaScript twin of the normaliser, the one that the route
    files load ([require('../utils/serviceClient')]).  It reads
    [error.response.data.error] without testing [data] first, so on a
    body that is [null] the property read throws a [TypeError] instead
    of returning. *)
Module ServiceClientJs.

Inductive Completion : Type :=
| Returned (e : ServiceError.t)
| TypeErrorThrown.

Definition handleServiceError (error : AxiosError) : Completion :=
  match response error with
  | Some r =>
      match data r with
      | JNull => TypeErrorThrown
      | d =>
          Returned
            {| ServiceError.statusCode := status r;
               ServiceError.message :=
                 match get "error" d with
                 | Some v => if truthy v then v else JStr "Service error"
                 | None => JStr "Service error"
                 end;
               ServiceError.details := d |}
      end
  | None =>
      match request error with
      | Some _ =>
          Returned
            {| ServiceError.statusCode := 503;
               ServiceError.message := JStr "Service unavailable";
               ServiceError.details := JStr "No response received from service" |}
      | None =>
          Returned
            {| ServiceError.statusCode := 500;
               ServiceError.message := JStr "Error connecting to service";
               ServiceError.details := JStr (message error) |}
      end
  end.

(** The message of the [TypeError], as the engine words it (V8). *)
Definition type_error_message : string :=
  "Cannot read properties of null (reading 'error')".

(** The normaliser on whatever the [catch] of a client method caught.
    It does not ask whether the value is an axios error: it reads the
    three members.  An [Error] of another kind has a [message] and
    neither [response] nor [request]; a value that is no object has
    none of the three, and [details] is [undefined] (nothing under the
    call throws [null] or [undefined]). *)
Definition caught (error : Thrown) : Completion :=
  match error with
  | AxiosErr e => handleServiceError e
  | NativeErr m => handleServiceError {| response := None; request := None; message := m |}
  | OtherVal _ =>
      Returned
        {| ServiceError.statusCode := 500;
           ServiceError.message := JStr "Error connecting to service";
           ServiceError.details := JNull |}
  end.

End ServiceClientJs.

(** *** The outside world and the log of client calls *)

Definition Buffer : Type := string.

Inductive AxiosOutcome (A : Type) : Type :=
| Resolved (data : A)          (* 2xx: [response.data] *)
| Rejected (error : Thrown).   (* the awaited call throws *)
Arguments Resolved {A} data.
Arguments Rejected {A} error.

(** What lies outside the process: the answers of the two upstream
    services, and the clock. *)
Record World : Type := {
  GET_bills : AxiosOutcome json;
  GET_bill : string -> AxiosOutcome json;
  POST_bills : json -> AxiosOutcome CreatedBill.t;
  PUT_bill : string -> json -> AxiosOutcome json;
  DELETE_bill : string -> AxiosOutcome json;
  POST_parse_bill : Buffer -> string -> AxiosOutcome ParsedReceipt.t;
  now : Date.t
}.

Inductive Call : Type :=
| GetAllBills
| GetBillById (id : string)
| CreateBill (billData : json)
| UpdateBill (id : string) (billData : json)
| DeleteBill (id : string)
| ParseBillImage (imageBuffer : Buffer) (filename : string).

(** Computations that call upstream: the log of calls made so far is
    threaded through. *)
Definition Eff (A : Type) : Type := list Call -> A * list Call.

Definition ret {A : Type} (a : A) : Eff A := fun log => (a, log).

Definition bind {A B : Type} (m : Eff A) (k : A -> Eff B) : Eff B :=
  fun log => let '(a, log') := m log in k a log'.

Definition run {A : Type} (m : Eff A) : A * list Call := m [].

Declare Scope eff_scope.
Delimit Scope eff_scope with eff.
Notation "x <- m ;; k" := (bind m (fun x => k))
  (at level 61, m at next level, right associativity) : eff_scope.

(** [try { const response = await <call>; return response.data }
     catch (error) { throw handleServiceError(error) }], with the
    normaliser of serviceClient.js: what the method throws is the
    object the normaliser returned, or the [TypeError] that the
    normaliser itself threw. *)
Definition attempt {A : Type} (c : Call) (answer : AxiosOutcome A)
    : Eff (ServiceClientJs.Completion + A) :=
  fun log =>
    (match answer with
     | Resolved d => inr d
     | Rejected error => inl (ServiceClientJs.caught error)
     end, (log ++ [c])%list).

Module accountsService.
Definition getAllBills (w : World) := attempt GetAllBills (GET_bills w).
Definition getBillById (w : World) (id : string) :=
  attempt (GetBillById id) (GET_bill w id).
Definition createBill (w : World) (billData : json) :=
  attempt (CreateBill billData) (POST_bills w billData).
Definition updateBill (w : World) (id : string) (billData : json) :=
  attempt (UpdateBill id billData) (PUT_bill w id billData).
Definition deleteBill (w : World) (id : string) :=
  attempt (DeleteBill id) (DELETE_bill w id).
End accountsService.

Module billParserService.
Definition parseBillImage (w : World) (imageBuffer : Buffer) (filename : string) :=
  attempt (ParseBillImage imageBuffer filename) (POST_parse_bill w imageBuffer filename).
End billParserService.

End ServiceClient.

(* ================================================================== *)
(** ** Numbers, as the engine has them *)
(* ================================================================== *)

(** A Number is an IEEE 754 binary64 value.  The finite ones are
    rationals, and the two operations that the schema library applies
    to a numeric string are exact on them: reading a decimal numeral
    ([parseFloat], the nearest Number, ties to even) and printing a
    Number ([String(x)], the shortest decimal that is read back as
    [x]). *)
Module Number.

(** The decimal numeral of an integer. *)
Definition numeral (z : Z) : string :=
  NilZero.string_of_int (Z.to_int z).

(** [a / b] divided by [2 ^ s], as a fraction. *)
Definition shifted (a b s : Z) : Z * Z :=
  if (0 <=? s)%Z then (a, b * 2 ^ s)%Z else (a * 2 ^ (- s), b)%Z.

(** The integer nearest to [num / den]; of two that are equally near,
    the even one. *)
Definition round_half_even (num den : Z) : Z :=
  let q := (num / den)%Z in
  match (2 * (num mod den) ?= den)%Z with
  | Lt => q
  | Gt => (q + 1)%Z
  | Eq => if Z.even q then q else (q + 1)%Z
  end.

(** The binary exponent of [a / b]: the [e] with
    [2 ^ e <= a / b < 2 ^ (e + 1)], for positive [a] and [b]. *)
Definition exponent (a b : Z) : Z :=
  let e := (Z.log2 a - Z.log2 b)%Z in
  let '(n, d) := shifted a b e in
  if (d <=? n)%Z then e else (e - 1)%Z.

(** [m * 2 ^ s] *)
Definition scaled (m s : Z) : Q :=
  if (0 <=? s)%Z then inject_Z (m * 2 ^ s)
  else Qred (Qmake m (Z.to_pos (2 ^ (- s)))).

Definition nearest_pos (a b : Z) : option Q :=
  let s := (Z.max (exponent a b) (-1022) - 52)%Z in
  let '(n, d) := shifted a b s in
  let m := round_half_even n d in
  if (1024 <=? Z.log2 m + s)%Z then None
  else Some (scaled m s).

(** The Number value for a rational: the nearest binary64 number,
    ties to even; [None] is an infinity. *)
Definition nearest (q : Q) : option Q :=
  match Qnum q with
  | Z0 => Some 0%Q
  | Zpos a => nearest_pos (Zpos a) (Zpos (Qden q))
  | Zneg a => option_map Qopp (nearest_pos (Zpos a) (Zpos (Qden q)))
  end.

Definition pow10 (n : Z) : Q :=
  if (0 <=? n)%Z then inject_Z (10 ^ n) else Qmake 1 (Z.to_pos (10 ^ (- n))).

Definition Qlt_bool (x y : Q) : bool := negb (Qle_bool y x).

(** The decimal exponent of a positive [x]: the [n] with
    [10 ^ (n - 1) <= x < 10 ^ n], looked for upwards from [n] when
    [10 ^ (n - 1) <= x] and downwards from [n] when [x < 10 ^ n]. *)
Fixpoint magnitude_up (fuel : nat) (n : Z) (x : Q) : Z :=
  match fuel with
  | O => n
  | S fuel' => if Qlt_bool x (pow10 n) then n else magnitude_up fuel' (n + 1)%Z x
  end.

Fixpoint magnitude_down (fuel : nat) (n : Z) (x : Q) : Z :=
  match fuel with
  | O => n
  | S fuel' => if Qle_bool (pow10 (n - 1)) x then n else magnitude_down fuel' (n - 1)%Z x
  end.

Definition magnitude (x : Q) : Z :=
  if Qle_bool 1 x then magnitude_up 400 1 x else magnitude_down 400 0 x.

Definition round_trips (x : Q) (c e : Z) : bool :=
  match nearest (inject_Z c * pow10 e) with
  | Some y => Qeq_bool y x
  | None => false
  end.

(** Among the multiples of [10 ^ e], the one that is read back as [x],
    if there is one: the nearer to [x] of the two around it, the even
    one when both are equally near. *)
Definition digits_at (x : Q) (e : Z) : option Z :=
  let y := (x * pow10 (- e))%Q in
  let lo := Qfloor y in
  let hi := Qceiling y in
  match round_trips x lo e, round_trips x hi e with
  | true, true =>
      match ((y - inject_Z lo) ?= (inject_Z hi - y))%Q with
      | Lt => Some lo
      | Gt => Some hi
      | Eq => if Z.even lo then Some lo else Some hi
      end
  | true, false => Some lo
  | false, true => Some hi
  | false, false => None
  end.

(** The shortest decimal that is read back as [x]: its digits as an
    integer [c] and their number [k]; [x] is about [c * 10 ^ (n - k)]. *)
Fixpoint shortest (fuel : nat) (k : Z) (x : Q) (n : Z) : Z * Z :=
  match fuel with
  | O => (Qfloor (x * pow10 (k - n)), k)
  | S fuel' =>
      match digits_at x (n - k) with
      | Some c => (c, k)
      | None => shortest fuel' (k + 1)%Z x n
      end
  end.

Fixpoint zeros (k : nat) : string :=
  match k with O => "" | S k' => String "0" (zeros k') end.

Definition exponent_part (e : Z) : string :=
  "e" ++ (if (0 <=? e)%Z then "+" else "-") ++ numeral (Z.abs e).

(** Number::toString of the language specification, for a positive
    number. *)
Definition toString_pos (x : Q) : string :=
  let n0 := magnitude x in
  let '(c, k) := shortest 17 1 x n0 in
  let '(s, n) := if (c =? 10 ^ k)%Z then (10 ^ (k - 1), n0 + 1)%Z else (c, n0) in
  let ds := numeral s in
  if (k <=? n)%Z && (n <=? 21)%Z then numeral (s * 10 ^ (n - k))
  else if (0 <? n)%Z && (n <=? 21)%Z
  then substring 0 (Z.to_nat n) ds ++ "." ++ substring (Z.to_nat n) (Z.to_nat (k - n)) ds
  else if (-6 <? n)%Z && (n <=? 0)%Z
  then "0." ++ zeros (Z.to_nat (- n)) ++ ds
  else if (k =? 1)%Z then ds ++ exponent_part (n - 1)
  else substring 0 1 ds ++ "." ++ substring 1 (Z.to_nat (k - 1)) ds ++ exponent_part (n - 1).

Definition toString (x : Q) : string :=
  match Qnum x with
  | Z0 => "0"
  | Zpos _ => toString_pos x
  | Zneg _ => "-" ++ toString_pos (- x)
  end.

End Number.

(* ================================================================== *)
(** ** The schema library (joi), as far as the schemas use it *)
(* ================================================================== *)

(** The library is not part of the repository; this is its documented
    behaviour (joi 17) for the types and rules the two schemas are
    built from, on values decoded from JSON.

    [schema.validate(value)] runs with the library's default
    preferences, which is how the middleware calls it: [convert] on
    (numeric and boolean strings are converted), [abortEarly] on
    (validation stops at the first violation), unknown object keys not
    allowed, keys optional unless marked required.  The second
    preference is a parameter of the model so that the run reporting
    every violation can be written down as well.  A numeric string
    is converted to the Number that [parseFloat] reads, and is turned
    down as unsafe when printing that Number does not give the string
    back. *)
Module Joi.

Definition dquote : string := String "034"%char "".

(** Values a rule can [allow]: primitives. *)
Inductive Prim : Type := PNull | PStr (s : string).

Definition same_prim (v : json) (p : Prim) : bool :=
  match p, v with
  | PNull, JNull => true
  | PStr s, JStr s' => s =? s'
  | _, _ => false
  end.

(** A regular expression: its source text and the strings it matches. *)
Record RegExp : Type := { source : string; test : string -> bool }.

Inductive NumRule : Type := Integer | Min (limit : Z).

Record Flags : Type := {
  presence_required : bool;
  valids : list Prim;
  default_value : option json
}.

Definition no_flags : Flags :=
  {| presence_required := false; valids := []; default_value := None |}.

Inductive Schema : Type :=
| SString (f : Flags) (pattern_rule : option RegExp)
| SNumber (f : Flags) (rules : list NumRule)
| SBoolean (f : Flags)
| SArray (f : Flags) (item : option Schema)
| SObject (f : Flags) (children : list (string * Schema)).

Definition flags (s : Schema) : Flags :=
  match s with
  | SString f _ | SNumber f _ | SBoolean f | SArray f _ | SObject f _ => f
  end.

Definition with_flags (f : Flags) (s : Schema) : Schema :=
  match s with
  | SString _ p => SString f p
  | SNumber _ r => SNumber f r
  | SBoolean _ => SBoolean f
  | SArray _ i => SArray f i
  | SObject _ c => SObject f c
  end.

(** *** Error reports *)

Inductive PathSeg : Type := Key (k : string) | Index (i : nat).

Record Detail : Type := {
  message : string;
  path : list PathSeg;
  type : string
}.

Definition string_of_nat (n : nat) : string :=
  NilZero.string_of_uint (Nat.to_uint n).

Definition string_of_Z (z : Z) : string :=
  NilZero.string_of_int (Z.to_int z).

Fixpoint render_path (first : bool) (p : list PathSeg) : string :=
  match p with
  | [] => ""
  | Key k :: rest => (if first then k else "." ++ k) ++ render_path false rest
  | Index i :: rest => "[" ++ string_of_nat i ++ "]" ++ render_path false rest
  end.

Definition label (p : list PathSeg) : string :=
  dquote ++ (match p with [] => "value" | _ => render_path true p end) ++ dquote.

Definition report (p : list PathSeg) (code : string) (text : string) : Detail :=
  {| message := label p ++ text; path := p; type := code |}.

(** *** Conversions under [convert] *)

Fixpoint span (p : ascii -> bool) (s : String.string) : String.string * String.string :=
  match s with
  | EmptyString => (EmptyString, EmptyString)
  | String c rest =>
      if p c then let '(a, b) := span p rest in (String c a, b)
      else (EmptyString, s)
  end.

Fixpoint digits_value (acc : Z) (ds : String.string) : Z :=
  match ds with
  | EmptyString => acc
  | String c rest => digits_value (10 * acc + Z.of_nat (nat_of_ascii c - 48)) rest
  end.

Definition read_sign (s : String.string) : Z * String.string :=
  match s with
  | String "+" rest => (1, rest)
  | String "-" rest => (-1, rest)
  | _ => (1, s)
  end.

Definition scale (m k : Z) : Q :=
  if (0 <=? k)%Z then inject_Z (m * 10 ^ k)
  else Qmake m (Z.to_pos (10 ^ (- k))).

(** The numeric strings the number type converts (its [numberRx]):
    optional white space, an optional sign, digits with an optional
    fraction or a fraction alone, an optional exponent [e] or [E] with
    its own optional sign, optional white space.  The result is the
    rational that the numeral spells. *)
Definition decimal_of_string (s : String.string) : option Q :=
  let '(_, s1) := span is_space s in
  let '(sg, s2) := read_sign s1 in
  let '(ip, s3) := span is_digit s2 in
  let '(fp, s4) :=
    match s3 with
    | String "." rest => let '(f, r) := span is_digit rest in (Some f, r)
    | _ => (None, s3)
    end in
  let mantissa_ok :=
    match ip, fp with
    | EmptyString, Some (String _ _) => true
    | EmptyString, _ => false
    | _, _ => true
    end in
  let frac := match fp with Some f => f | None => EmptyString end in
  let exponent :=
    match s4 with
    | String c rest =>
        if Ascii.eqb c "e" || Ascii.eqb c "E" then
          let '(esg, r1) := read_sign rest in
          let '(ed, r2) := span is_digit r1 in
          match ed with
          | EmptyString => None
          | _ => Some (esg * digits_value 0 ed, r2)
          end
        else Some (0, s4)
    | EmptyString => Some (0, s4)
    end in
  match exponent with
  | Some (e, s5) =>
      let '(_, s6) := span is_space s5 in
      match s6 with
      | EmptyString =>
          if mantissa_ok
          then Some (scale (sg * digits_value 0 (ip ++ frac))
                           (e - Z.of_nat (String.length frac)))
          else None
      | _ => None
      end
  | None => None
  end.

Definition lower (c : ascii) : ascii :=
  let n := nat_of_ascii c in
  if (65 <=? n)%nat && (n <=? 90)%nat then ascii_of_nat (n + 32) else c.

Fixpoint toLowerCase (s : String.string) : String.string :=
  match s with
  | EmptyString => EmptyString
  | String c rest => String (lower c) (toLowerCase rest)
  end.

(** *** Strings, as the conversion of numbers handles them *)

Fixpoint drop_while (p : ascii -> bool) (s : String.string) : String.string :=
  match s with
  | EmptyString => EmptyString
  | String c rest => if p c then drop_while p rest else s
  end.

(** [s] without the characters of [p] that it ends in. *)
Fixpoint drop_end (p : ascii -> bool) (s : String.string) : String.string :=
  match s with
  | EmptyString => EmptyString
  | String c rest => if every p s then EmptyString else String c (drop_end p rest)
  end.

(** [s.trim()] *)
Definition trim (s : String.string) : String.string :=
  drop_end is_space (drop_while is_space s).

Definition is_zero (c : ascii) : bool := Ascii.eqb c "0".
Definition is_point (c : ascii) : bool := Ascii.eqb c ".".
Definition is_e (c : ascii) : bool := Ascii.eqb c "e" || Ascii.eqb c "E".

Fixpoint some (p : ascii -> bool) (s : String.string) : bool :=
  match s with
  | EmptyString => false
  | String c rest => p c || some p rest
  end.

(** What is done after an optional leading [-]. *)
Definition after_minus (f : String.string -> String.string) (s : String.string)
    : String.string :=
  match s with
  | String "-" rest => String "-" (f rest)
  | _ => f s
  end.

(** The second replacement: a point with nothing but zeros up to the
    end goes, with them. *)
Fixpoint drop_point_zeros (s : String.string) : String.string :=
  match s with
  | EmptyString => EmptyString
  | String c rest =>
      if is_point c && every is_zero rest then EmptyString
      else String c (drop_point_zeros rest)
  end.

(** The third replacement: a [0] goes before a point that opens the
    numeral, when no other point follows. *)
Definition zero_before_point (s : String.string) : String.string :=
  match s with
  | String "." rest => if some is_point rest then s else String "0" s
  | _ => s
  end.

(** The fourth replacement: zeros that open the numeral go, as long
    as a digit follows. *)
Fixpoint drop_leading_zeros (s : String.string) : String.string :=
  match s with
  | String "0" (String c _ as rest) => if is_digit c then drop_leading_zeros rest else s
  | _ => s
  end.

(** [normalizeDecimal] of the number type. *)
Definition normalizeDecimal (str : String.string) : String.string :=
  let str := match str with String "+" rest => rest | _ => str end in
  let str := drop_point_zeros str in
  let str := after_minus zero_before_point str in
  let str := after_minus drop_leading_zeros str in
  let str := if some is_point str then drop_end is_zero str else str in
  if (str =? "-0")%string then "0" else str.

(** The exponent part at the end goes: [e] or [E], an optional sign,
    digits. *)
Fixpoint drop_exponent (s : String.string) : String.string :=
  match s with
  | EmptyString => EmptyString
  | String c rest =>
      let digits := match rest with
                    | String "+" r | String "-" r => r
                    | _ => rest
                    end in
      if is_e c && every is_digit digits && negb (digits =? "")%string
      then EmptyString
      else String c (drop_exponent rest)
  end.

(** The first point goes. *)
Fixpoint drop_point (s : String.string) : String.string :=
  match s with
  | EmptyString => EmptyString
  | String c rest => if is_point c then rest else String c (drop_point rest)
  end.

(** [extractSignificantDigits] of the number type. *)
Definition extractSignificantDigits (value : String.string) : String.string :=
  let s := drop_end is_zero (drop_point (drop_exponent value)) in
  let s := match s with String "+" r | String "-" r => r | _ => s end in
  drop_while is_zero s.

(** What the conversion of a number gives: a value to validate, or
    the error [number.unsafe]. *)
Inductive Coerced : Type :=
| Kept (v : json)
| Unsafe.

(** [coerce] of the number type: a string that spells a number becomes
    [parseFloat] of it, unless the digits that the Number prints are
    not the digits of the string. *)
Definition coerce_number (v : json) : Coerced :=
  match v with
  | JStr s =>
      match decimal_of_string s with
      | None => Kept v
      | Some q =>
          let value := trim s in
          match Number.nearest q with
          | None => Unsafe
          | Some x =>
              let str := Number.toString x in
              if some is_e value then
                if (extractSignificantDigits value =? extractSignificantDigits str)%string
                then Kept (JNum x) else Unsafe
              else if some is_e str then Kept (JNum x)
              else if (str =? normalizeDecimal value)%string then Kept (JNum x)
              else Unsafe
          end
      end
  | _ => Kept v
  end.

Definition converted (c : option Coerced) : option json :=
  match c with
  | Some (Kept v) => Some v
  | _ => None
  end.

Definition coerce_boolean (v : json) : json :=
  match v with
  | JStr s =>
      let n := toLowerCase s in
      if n =? "true" then JBool true
      else if n =? "false" then JBool false
      else v
  | _ => v
  end.

Definition is_integer (n : Q) : bool :=
  (Qnum n mod Zpos (Qden n) =? 0)%Z.

Definition MAX_SAFE_INTEGER : Z := 2 ^ 53 - 1.

Definition unsafe (n : Q) : bool :=
  negb (Qle_bool n (inject_Z MAX_SAFE_INTEGER))
  || negb (Qle_bool (inject_Z (- MAX_SAFE_INTEGER)) n).

(** *** Validation *)

Definition Outcome : Type := list Detail * option json.

Definition first_only (abortEarly : bool) (es : list Detail) : list Detail :=
  if abortEarly then firstn 1 es else es.

Definition check_rule (p : list PathSeg) (n : Q) (r : NumRule) : list Detail :=
  match r with
  | Integer =>
      if is_integer n then []
      else [report p "number.integer" " must be an integer"]
  | Min limit =>
      if Qle_bool (inject_Z limit) n then []
      else [report p "number.min"
              (" must be greater than or equal to " ++ string_of_Z limit)]
  end.

Fixpoint check_rules (abortEarly : bool) (p : list PathSeg) (n : Q)
    (rules : list NumRule) : list Detail :=
  match rules with
  | [] => []
  | r :: rest =>
      match check_rule p n r with
      | [] => check_rules abortEarly p n rest
      | es => if abortEarly then es else (es ++ check_rules abortEarly p n rest)%list
      end
  end.

(** What every type does first: a missing value is an error only when
    the key is required (otherwise the default, if any, is the result);
    an allowed value is accepted as it is; anything else goes to the
    type's own checks. *)
Definition presence (f : Flags) (p : list PathSeg) (v : option json)
    (check : json -> Outcome) : Outcome :=
  match v with
  | None =>
      if presence_required f
      then ([report p "any.required" " is required"], None)
      else ([], default_value f)
  | Some x =>
      if existsb (same_prim x) (valids f) then ([], Some x) else check x
  end.

Fixpoint set_field (k : String.string) (v : json) (fields : list (String.string * json))
    : list (String.string * json) :=
  match fields with
  | [] => [(k, v)]
  | (k', v') :: rest =>
      if (k' =? k)%string then (k, v) :: rest else (k', v') :: set_field k v rest
  end.

Definition unknown_keys (children : list (String.string * Schema))
    (fields : list (String.string * json)) : list String.string :=
  filter (fun k => negb (existsb (String.eqb k) (map fst children))) (keys fields).

(** The two loops of the container types, over whatever validates a
    member: the keys of an object schema in their order, each against
    the member of that name, and the elements of an array in theirs.
    A converted member replaces the original in the result.  With
    [abortEarly] the first member in error ends the loop. *)
Section Loops.

Variable validate_member : Schema -> list PathSeg -> option json -> Outcome.
Variable abortEarly : bool.
Variable p : list PathSeg.

Fixpoint each_key (cs : list (String.string * Schema))
    (value : list (String.string * json))
    : list Detail * list (String.string * json) :=
  match cs with
  | [] => ([], value)
  | (k, c) :: rest =>
      let '(es, r) := validate_member c (p ++ [Key k])%list (assoc k value) in
      let value' := match r with Some z => set_field k z value | None => value end in
      match es with
      | [] => each_key rest value'
      | _ =>
          if abortEarly then (es, value)
          else let '(es', value'') := each_key rest value' in ((es ++ es')%list, value'')
      end
  end.

Fixpoint each_item (it : Schema) (i : nat) (xs : list json)
    : list Detail * list json :=
  match xs with
  | [] => ([], [])
  | y :: rest =>
      let '(es, r) := validate_member it (p ++ [Index i])%list (Some y) in
      let y' := match r with Some z => z | None => y end in
      match es with
      | [] => let '(es', rs) := each_item it (S i) rest in (es', y' :: rs)
      | _ =>
          if abortEarly then (es, y :: rest)
          else let '(es', rs) := each_item it (S i) rest in ((es ++ es')%list, y :: rs)
      end
  end.

End Loops.

Definition unknown_reports (abortEarly : bool) (p : list PathSeg)
    (children : list (String.string * Schema)) (fields : list (String.string * json))
    : list Detail :=
  first_only abortEarly
    (map (fun k => report (p ++ [Key k]) "object.unknown" " is not allowed")
         (unknown_keys children fields)).

Fixpoint validate_at (abortEarly : bool) (s : Schema) (p : list PathSeg)
    (v : option json) {struct s} : Outcome :=
  match s with
  | SString f re =>
      presence f p v (fun x =>
        match x with
        | JStr str =>
            if (str =? "")%string
            then ([report p "string.empty" " is not allowed to be empty"], Some x)
            else
              match re with
              | Some r =>
                  if test r str then ([], Some x)
                  else ([report p "string.pattern.base"
                           (" with value " ++ dquote ++ str ++ dquote
                            ++ " fails to match the required pattern: " ++ source r)],
                        Some x)
              | None => ([], Some x)
              end
        | _ => ([report p "string.base" " must be a string"], Some x)
        end)
  | SNumber f rules =>
      match option_map coerce_number v with
      | Some Unsafe => ([report p "number.unsafe" " must be a safe number"], v)
      | coerced =>
          presence f p (converted coerced) (fun x =>
            match x with
            | JNum n =>
                if unsafe n
                then ([report p "number.unsafe" " must be a safe number"], Some x)
                else (check_rules abortEarly p n rules, Some x)
            | _ => ([report p "number.base" " must be a number"], Some x)
            end)
      end
  | SBoolean f =>
      presence f p (option_map coerce_boolean v) (fun x =>
        match x with
        | JBool _ => ([], Some x)
        | _ => ([report p "boolean.base" " must be a boolean"], Some x)
        end)
  | SArray f item =>
      presence f p v (fun x =>
        match x with
        | JArr xs =>
            match item with
            | None => ([], Some x)
            | Some it =>
                let '(es, ys) :=
                  each_item (validate_at abortEarly) abortEarly p it 0%nat xs in
                (es, Some (JArr ys))
            end
        | _ => ([report p "array.base" " must be an array"], Some x)
        end)
  | SObject f children =>
      presence f p v (fun x =>
        match x with
        | JObj fields =>
            let '(es, value) :=
              each_key (validate_at abortEarly) abortEarly p children fields in
            match es, abortEarly with
            | _ :: _, true => (es, Some (JObj value))
            | _, _ =>
                ((es ++ unknown_reports abortEarly p children fields)%list,
                 Some (JObj value))
            end
        | _ => ([report p "object.base" " must be of type object"], Some x)
        end)
  end.

(** The [{ value, error }] pair [schema.validate] returns; [error] is
    [undefined] when nothing was violated, otherwise it carries
    [details]. *)
Record ValidationResult : Type := {
  value : option json;
  error : option (list Detail)
}.

Definition validate_with (abortEarly : bool) (s : Schema) (v : json) : ValidationResult :=
  let '(es, r) := validate_at abortEarly s [] (Some v) in
  {| value := r; error := match es with [] => None | _ => Some es end |}.

(** [schema.validate(v)]: default preferences. *)
Definition validate (s : Schema) (v : json) : ValidationResult :=
  validate_with true s v.

(** *** The builders *)
Definition string : Schema := SString no_flags None.
Definition number : Schema := SNumber no_flags [].
Definition boolean : Schema := SBoolean no_flags.
Definition array : Schema := SArray no_flags None.
Definition object (children : list (String.string * Schema)) : Schema := SObject no_flags children.

Definition required (s : Schema) : Schema :=
  with_flags {| presence_required := true;
                valids := valids (flags s);
                default_value := default_value (flags s) |} s.

Definition allow (vs : list Prim) (s : Schema) : Schema :=
  with_flags {| presence_required := presence_required (flags s);
                valids := (valids (flags s) ++ vs)%list;
                default_value := default_value (flags s) |} s.

Definition default (v : json) (s : Schema) : Schema :=
  with_flags {| presence_required := presence_required (flags s);
                valids := valids (flags s);
                default_value := Some v |} s.

Definition pattern (re : RegExp) (s : Schema) : Schema :=
  match s with
  | SString f _ => SString f (Some re)
  | _ => s
  end.

Definition integer (s : Schema) : Schema :=
  match s with
  | SNumber f rules => SNumber f (rules ++ [Integer])%list
  | _ => s
  end.

Definition min (limit : Z) (s : Schema) : Schema :=
  match s with
  | SNumber f rules => SNumber f (rules ++ [Min limit])%list
  | _ => s
  end.

Definition items (it : Schema) (s : Schema) : Schema :=
  match s with
  | SArray f _ => SArray f (Some it)
  | _ => s
  end.

End Joi.

(** Builders chain left to right, as in the source:
    [Joi.number().integer().min(1)] is [Joi.number |> Joi.integer |> Joi.min 1]. *)
Notation "x |> f" := (f x) (at level 68, left associativity, only parsing).

(* ================================================================== *)
(** ** The web framework (express), as far as the routes use it *)
(* ================================================================== *)

Module Express.
Import ServiceClient.

(** What a handler sends: the code given to [res.status] and the
    value given to [res.json]. *)
Record Response : Type := { status : Z; body : json }.

(** [res.json(b)] without a preceding [res.status]. *)
Definition ok (b : json) : Response := {| status := 200; body := b |}.

(** [{ error: v }] *)
Definition error_body (v : json) : json := JObj [("error", v)].

(** What a handler hands to [next(err)]: the plain object a client
    threw, or an [Error] instance, which has a [message] and no
    [statusCode]. *)
Inductive Failure : Type :=
| ServiceFailure (e : ServiceError.t)
| ErrorObject (message : string).

(** What the [catch] of a handler holds after a client method threw:
    the object of the normaliser, or its [TypeError]. *)
Definition raised (error : ServiceClientJs.Completion) : Failure :=
  match error with
  | ServiceClientJs.Returned e => ServiceFailure e
  | ServiceClientJs.TypeErrorThrown => ErrorObject ServiceClientJs.type_error_message
  end.

(** How one middleware ends. *)
Inductive Step : Type :=
| Respond (res : Response)
| Next
| NextErr (err : Failure).

Definition Middleware (Req : Type) : Type := Req -> Eff Step.

(** [router.METHOD(path, m1, m2, ...)]: each middleware runs when the
    one before it called [next()]. *)
Fixpoint chain {Req : Type} (ms : list (Middleware Req)) (req : Req) : Eff Step :=
  match ms with
  | [] => ret Next
  | m :: rest =>
      (s <- m req ;;
       match s with
       | Next => chain rest req
       | _ => ret s
       end)%eff
  end.

End Express.

(* ================================================================== *)
(** ** middleware/validation.ts *)
(* ================================================================== *)

Module Validation.
Import ServiceClient Express.

Inductive Property : Type := Body | Query | Params.

(** The request as the bills routes see it; [req.params] is
    [{ id: <path segment> }]. *)
Record Request : Type := {
  params_id : string;
  req_query : json;
  req_body : json
}.

Definition prop (req : Request) (property : Property) : json :=
  match property with
  | Body => req_body req
  | Query => req_query req
  | Params => JObj [("id", JStr (params_id req))]
  end.

(** The answer to a failed validation. *)
Definition rejection (details : list Joi.Detail) : Response :=
  let message := join ", " (map Joi.message details) in
  {| status := 400; body := error_body (JStr message) |}.

Definition validate (schema : Joi.Schema) (property : Property) : Middleware Request :=
  fun req =>
    match Joi.error (Joi.validate schema (prop req property)) with
    | None => ret Next
    | Some details => ret (Respond (rejection details))
    end.

(** A regular expression that is a sequence of counted atoms between
    [^] and [$]. *)
Inductive Atom : Type := Digit | Lit (c : ascii).

Definition atom_matches (a : Atom) (c : ascii) : bool :=
  match a with
  | Digit => is_digit c
  | Lit l => Ascii.eqb c l
  end.

Fixpoint match_atoms (re : list (Atom * nat)) (s : string) : bool :=
  match re with
  | [] => match s with EmptyString => true | _ => false end
  | (a, O) :: rest => match_atoms rest s
  | (a, S n) :: rest =>
      (fix times (k : nat) (s : string) : bool :=
         match k with
         | O => match_atoms rest s
         | S k' =>
             match s with
             | String c s' => atom_matches a c && times k' s'
             | EmptyString => false
             end
         end) (S n) s
  end.

Definition due_date_pattern : Joi.RegExp :=
  {| Joi.source := "/^\d{4}-\d{2}-\d{2}$/";
     Joi.test := match_atoms [(Digit, 4%nat); (Lit "-", 1%nat); (Digit, 2%nat);
                              (Lit "-", 1%nat); (Digit, 2%nat)] |}.

Definition billItemSchema : Joi.Schema :=
  Joi.object [
    ("name", Joi.string |> Joi.required);
    ("description", Joi.string |> Joi.allow [Joi.PStr ""; Joi.PNull]);
    ("amount", Joi.number |> Joi.required |> Joi.min 0);
    ("quantity", Joi.number |> Joi.integer |> Joi.min 1 |> Joi.default (JNum 1))
  ].

Definition billSchema : Joi.Schema :=
  Joi.object [
    ("title", Joi.string |> Joi.required);
    ("description", Joi.string |> Joi.allow [Joi.PStr ""; Joi.PNull]);
    ("due_date", Joi.string |> Joi.pattern due_date_pattern);
    ("paid", Joi.boolean |> Joi.default (JBool false));
    ("items", Joi.array |> Joi.items billItemSchema)
  ].

Definition idParamSchema : Joi.Schema :=
  Joi.object [ ("id", Joi.number |> Joi.integer |> Joi.required) ].

End Validation.

(* ================================================================== *)
(** ** routes/bills *)
(* ================================================================== *)

Module Bills.
Import ServiceClient Express Validation.

Definition bill_not_found : Response :=
  {| status := 404; body := error_body (JStr "Bill not found") |}.

(** The [catch] of the three routes with an id:
    [if (error.statusCode === 404) return res.status(404).json(...);
     next(error)].  A [TypeError] has no [statusCode]. *)
Definition not_found_or_next (error : ServiceClientJs.Completion) : Step :=
  match error with
  | ServiceClientJs.Returned e =>
      if (ServiceError.statusCode e =? 404)%Z
      then Respond bill_not_found
      else NextErr (ServiceFailure e)
  | ServiceClientJs.TypeErrorThrown => NextErr (raised error)
  end.

(** [router.get('/', ...)]: [bills.map(bill => ({ ...bill }))].  When
    [bills] is not an array the call of [map] throws a [TypeError],
    which the [catch] hands to [next]. *)
Definition get_all (w : World) : list (Middleware Request) :=
  [ fun req =>
      (r <- accountsService.getAllBills w ;;
       match r with
       | inr bills =>
           match bills with
           | JArr xs => ret (Respond (ok (JArr (map spread xs))))
           | JNull =>
               ret (NextErr (ErrorObject "Cannot read properties of null (reading 'map')"))
           | _ => ret (NextErr (ErrorObject "bills.map is not a function"))
           end
       | inl error => ret (NextErr (raised error))
       end)%eff ].

(** [router.get('/:id', ...)] *)
Definition get_by_id (w : World) : list (Middleware Request) :=
  [ validate idParamSchema Params;
    fun req =>
      (r <- accountsService.getBillById w (params_id req) ;;
       match r with
       | inr bill => ret (Respond (ok bill))
       | inl error => ret (not_found_or_next error)
       end)%eff ].

(** [router.post('/', ...)] *)
Definition post (w : World) : list (Middleware Request) :=
  [ validate billSchema Body;
    fun req =>
      (r <- accountsService.createBill w (req_body req) ;;
       match r with
       | inr result =>
           ret (Respond {| status := 201; body := CreatedBill.to_json result |})
       | inl error => ret (NextErr (raised error))
       end)%eff ].

(** [router.put('/:id', ...)] *)
Definition put (w : World) : list (Middleware Request) :=
  [ validate idParamSchema Params;
    validate billSchema Body;
    fun req =>
      (r <- accountsService.updateBill w (params_id req) (req_body req) ;;
       match r with
       | inr result => ret (Respond (ok result))
       | inl error => ret (not_found_or_next error)
       end)%eff ].

(** [router.delete('/:id', ...)] *)
Definition delete (w : World) : list (Middleware Request) :=
  [ validate idParamSchema Params;
    fun req =>
      (r <- accountsService.deleteBill w (params_id req) ;;
       match r with
       | inr result => ret (Respond (ok result))
       | inl error => ret (not_found_or_next error)
       end)%eff ].

End Bills.

(* ================================================================== *)
(** ** The upload middleware (multer), as far as the routes use it *)
(* ================================================================== *)

Module Multer.
Import ServiceClient Express.

Record File : Type := {
  fieldname : string;
  originalname : string;
  mimetype : string;
  buffer : Buffer;
  size : Z
}.

(** A multipart form as the parser routes document it: at most one
    file part, and an optional [title] text field. *)
Record Form : Type := {
  file_part : option File;
  title_field : option string
}.

(** [cb(null, true)], [cb(null, false)], [cb(new Error(m), false)] *)
Inductive Verdict : Type := Accept | Skip | RejectWith (message : string).

Record Options : Type := {
  fileSize : Z;
  fileFilter : File -> Verdict
}.

(** The request after the middleware: [req.file] and [req.body.title]. *)
Record Request : Type := {
  file : option File;
  body_title : option string
}.

Definition without_file (form : Form) : Request :=
  {| file := None; body_title := title_field form |}.

(** [upload.single(name)], as the library behaves (multer 1.4.5-lts
    and 2.x, on busboy 1.x, with the memory storage): a file part
    without a file name is drained; a file under another field name is
    unexpected; then the filter decides; then the memory storage reads
    the file, and the parser raises the limit as soon as the bytes
    read reach [fileSize], so a file of exactly that size is too
    large already.  Every rejection goes to [next(err)] with an
    [Error]. *)
Definition single (o : Options) (name : string) (form : Form) : Failure + Request :=
  match file_part form with
  | None => inr (without_file form)
  | Some f =>
      if originalname f =? "" then inr (without_file form)
      else if negb (fieldname f =? name) then inl (ErrorObject "Unexpected field")
      else
        match fileFilter o f with
        | RejectWith m => inl (ErrorObject m)
        | Skip => inr (without_file form)
        | Accept =>
            if (fileSize o <=? size f)%Z then inl (ErrorObject "File too large")
            else inr {| file := Some f; body_title := title_field form |}
        end
  end.

End Multer.

(* ================================================================== *)
(** ** routes/billParser *)
(* ================================================================== *)

Module BillParser.
Import ServiceClient Express Multer.

Definition upload : Options :=
  {| fileSize := 5 * 1024 * 1024;
     fileFilter := fun file =>
       if negb (startsWith "image/" (mimetype file))
       then RejectWith "Only image files are allowed"
       else Accept |}.

Definition no_image : Response :=
  {| status := 400; body := error_body (JStr "No image file provided") |}.

(** [router.post(path, upload.single('image'), handler)] *)
Definition with_upload (handler : Request -> Eff Step) (form : Form) : Eff Step :=
  match single upload "image" form with
  | inl err => ret (NextErr err)
  | inr req => handler req
  end.

Definition parse_bill_handler (w : World) (req : Request) : Eff Step :=
  match file req with
  | None => ret (Respond no_image)
  | Some f =>
      (r <- billParserService.parseBillImage w (buffer f) (originalname f) ;;
       match r with
       | inr parsedData => ret (Respond (ok (ParsedReceipt.to_json parsedData)))
       | inl error => ret (NextErr (raised error))
       end)%eff
  end.

(** [new Date().toISOString().split('T')[0]] *)
Definition today (now : Date.t) : string :=
  split_head "T" (Date.toISOString now).

(** The object literal [billData] of the second route, given the
    [title] the handler settled on. *)
Definition billData (title : string) (parsedData : ParsedReceipt.t) (now : Date.t)
    : BillInput.t :=
  {| BillInput.title := title;
     BillInput.description :=
       Some ("Created from receipt: "
             ++ or_default (ParsedReceipt.merchant parsedData) "Unknown merchant");
     BillInput.due_date :=
       Some (or_default (ParsedReceipt.date parsedData) (today now));
     BillInput.paid := Some false;
     BillInput.items :=
       Some (map (fun item =>
                    {| BillItemInput.name := ParsedReceiptItem.name item;
                       BillItemInput.description := Some "";
                       BillItemInput.amount := ParsedReceiptItem.price item;
                       BillItemInput.quantity := Some (ParsedReceiptItem.quantity item) |})
                 (ParsedReceipt.items parsedData)) |}.

(** The bill transformation as a function of the parse result and the
    optional title: [req.body.title || 'Bill from receipt image'],
    then the literal above. *)
Definition toBillInput (parsed : ParsedReceipt.t) (title : option string) (now : Date.t)
    : BillInput.t :=
  billData (or_default title "Bill from receipt image") parsed now.

Definition created_from_image (createdBill : CreatedBill.t) (parsedData : ParsedReceipt.t)
    : Response :=
  {| status := 201;
     body := JObj [("message", JStr "Bill created successfully from parsed image");
                   ("billId", JNum (CreatedBill.id createdBill));
                   ("parsedData", ParsedReceipt.to_json parsedData)] |}.

Definition create_bill_from_image_handler (w : World) (req : Request) : Eff Step :=
  match file req with
  | None => ret (Respond no_image)
  | Some f =>
      let title := or_default (body_title req) "Bill from receipt image" in
      (r <- billParserService.parseBillImage w (buffer f) (originalname f) ;;
       match r with
       | inl error => ret (NextErr (raised error))
       | inr parsedData =>
           let billData := billData title parsedData (now w) in
           c <- accountsService.createBill w (BillInput.to_json billData) ;;
           match c with
           | inl error => ret (NextErr (raised error))
           | inr createdBill => ret (Respond (created_from_image createdBill parsedData))
           end
       end)%eff
  end.

(** [router.post('/parse-bill', ...)] *)
Definition parse_bill (w : World) : Form -> Eff Step :=
  with_upload (parse_bill_handler w).

(** [router.post('/create-bill-from-image', ...)] *)
Definition create_bill_from_image (w : World) : Form -> Eff Step :=
  with_upload (create_bill_from_image_handler w).

(** The mapping in the spec's words, as a relation between the input
    and the bill: title and merchant fall back when they are absent,
    the date of the receipt is the due date whenever it is present. *)
Definition item_as_specified (item : ParsedReceiptItem.t) : BillItemInput.t :=
  {| BillItemInput.name := ParsedReceiptItem.name item;
     BillItemInput.description := Some "";
     BillItemInput.amount := ParsedReceiptItem.price item;
     BillItemInput.quantity := Some (ParsedReceiptItem.quantity item) |}.

Definition mapping_as_specified (parsed : ParsedReceipt.t) (title : option string)
    (b : BillInput.t) : Prop :=
  BillInput.title b
    = match title with Some t => t | None => "Bill from receipt image" end
  /\ BillInput.description b
     = Some ("Created from receipt: "
             ++ match ParsedReceipt.merchant parsed with
                | Some m => m
                | None => "Unknown merchant"
                end)
  /\ (forall d, ParsedReceipt.date parsed = Some d -> BillInput.due_date b = Some d)
  /\ BillInput.paid b = Some false
  /\ BillInput.items b = Some (map item_as_specified (ParsedReceipt.items parsed)).

(** The amended reading of the mapping: an empty string counts as
    absent.  [given s] is the string that is there and not empty. *)
Definition given (s : option string) : option string :=
  match s with
  | Some v => if v =? "" then None else Some v
  | None => None
  end.

Definition mapping_as_amended (parsed : ParsedReceipt.t) (title : option string)
    (b : BillInput.t) : Prop :=
  BillInput.title b
    = match given title with Some t => t | None => "Bill from receipt image" end
  /\ BillInput.description b
     = Some ("Created from receipt: "
             ++ match given (ParsedReceipt.merchant parsed) with
                | Some m => m
                | None => "Unknown merchant"
                end)
  /\ (forall d, given (ParsedReceipt.date parsed) = Some d -> BillInput.due_date b = Some d)
  /\ BillInput.paid b = Some false
  /\ BillInput.items b = Some (map item_as_specified (ParsedReceipt.items parsed)).

End BillParser.

(* ================================================================== *)
(** ** index.ts: mounting and the error middleware *)
(* ================================================================== *)

Module App.
Import ServiceClient Express.

Definition statusCode_of (err : Failure) : option Z :=
  match err with
  | ServiceFailure e => Some (ServiceError.statusCode e)
  | ErrorObject _ => None
  end.

Definition message_of (err : Failure) : json :=
  match err with
  | ServiceFailure e => ServiceError.message e
  | ErrorObject m => JStr m
  end.

(** [res.status(err.statusCode || 500)
        .json({ error: err.message || 'Internal Server Error' })] *)
Definition errorHandler (err : Failure) : Response :=
  {| status :=
       match statusCode_of err with
       | Some c => if (c =? 0)%Z then 500 else c
       | None => 500
       end;
     body :=
       error_body (if truthy (message_of err) then message_of err
                   else JStr "Internal Server Error") |}.

(** The framework's own answer when no middleware responded. *)
Definition unhandled : Response := {| status := 404; body := JNull |}.

Definition finish (s : Step) : Response :=
  match s with
  | Respond res => res
  | NextErr err => errorHandler err
  | Next => unhandled
  end.

(** One request through a mounted route: the response, and the log
    of upstream calls it caused. *)
Definition serve {Req : Type} (route : Req -> Eff Step) (req : Req)
    : Response * list Call :=
  run (s <- route req ;; ret (finish s))%eff.

Definition GET_bills (w : World) := serve (chain (Bills.get_all w)).
Definition GET_bill (w : World) := serve (chain (Bills.get_by_id w)).
Definition POST_bill (w : World) := serve (chain (Bills.post w)).
Definition PUT_bill (w : World) := serve (chain (Bills.put w)).
Definition DELETE_bill (w : World) := serve (chain (Bills.delete w)).
Definition POST_parse_bill (w : World) := serve (BillParser.parse_bill w).
Definition POST_create_bill_from_image (w : World) :=
  serve (BillParser.create_bill_from_image w).

End App.

(* ================================================================== *)
(** ** The spec's readings, and sample data *)
(* ================================================================== *)

Module Spec.
Import ServiceClient Express.

(** The message of the first shape as the spec words it: the body's
    [error] member whenever there is one. *)
Definition error_member_spec (d : json) : json :=
  match get "error" d with
  | Some v => v
  | None => JStr "Service error"
  end.

(** The normaliser as the spec words it. *)
Definition normalized_as_specified (error : Thrown) (e : ServiceError.t) : Prop :=
  match error with
  | AxiosErr {| response := Some r |} =>
      e = {| ServiceError.statusCode := ServiceClient.status r;
             ServiceError.message := error_member_spec (ServiceClient.data r);
             ServiceError.details := ServiceClient.data r |}
  | AxiosErr {| response := None; request := Some _ |} =>
      e = {| ServiceError.statusCode := 503;
             ServiceError.message := JStr "Service unavailable";
             ServiceError.details := JStr "No response received from service" |}
  | _ =>
      e = {| ServiceError.statusCode := 500;
             ServiceError.message := JStr "Error connecting to service";
             ServiceError.details := JStr (description_of error) |}
  end.

(** Every violation of a schema: the details of a validation that
    does not stop at the first one. *)
Definition all_violations (s : Joi.Schema) (v : json) : list Joi.Detail :=
  match Joi.error (Joi.validate_with false s v) with
  | Some details => details
  | None => []
  end.


(** The body the spec promises on a validation failure. *)
Definition all_messages (s : Joi.Schema) (v : json) : json :=
  error_body (JStr (join ", " (map Joi.message (all_violations s v)))).

(** A status line carries a three-digit code of one of the five
    classes. *)
Definition http_status (s : Z) : Prop := (100 <= s <= 599)%Z.

(** A thrown value as the transport produces it. *)
Definition well_formed (error : Thrown) : Prop :=
  match error with
  | AxiosErr {| response := Some r |} => http_status (ServiceClient.status r)
  | _ => True
  end.

(** A moment of a calendar day in the years that print with four
    digits. *)
Definition calendar (d : Date.t) : Prop :=
  (0 <= Date.year d <= 9999 /\ 1 <= Date.month d <= 12 /\ 1 <= Date.day d <= 31)%Z.

(** A receipt item whose bill item the bill schema accepts: a name, a
    price that is not negative, a quantity that is an integer of at
    least 1, both within the safe range of numbers. *)
Definition billable_item (i : ParsedReceiptItem.t) : Prop :=
  ParsedReceiptItem.name i <> ""
  /\ Joi.unsafe (ParsedReceiptItem.price i) = false
  /\ Qle_bool 0 (ParsedReceiptItem.price i) = true
  /\ Joi.unsafe (ParsedReceiptItem.quantity i) = false
  /\ Joi.is_integer (ParsedReceiptItem.quantity i) = true
  /\ Qle_bool 1 (ParsedReceiptItem.quantity i) = true.

(** A receipt whose date, if it has one, has the form the bill schema
    asks of a due date; without a date the clock decides. *)
Definition well_dated (p : ParsedReceipt.t) (now : Date.t) : Prop :=
  match ParsedReceipt.date p with
  | Some d =>
      if d =? "" then calendar now
      else Joi.test Validation.due_date_pattern d = true
  | None => calendar now
  end.

(** A bill item as the interface types it, within the rules of the
    item schema. *)
Definition valid_item (i : BillItemInput.t) : Prop :=
  BillItemInput.name i <> ""
  /\ Joi.unsafe (BillItemInput.amount i) = false
  /\ Qle_bool 0 (BillItemInput.amount i) = true
  /\ match BillItemInput.quantity i with
     | Some q => Joi.unsafe q = false /\ Joi.is_integer q = true /\ Qle_bool 1 q = true
     | None => True
     end.

(** A bill as the interface types it, within the rules of the bill
    schema. *)
Definition valid_bill (b : BillInput.t) : Prop :=
  BillInput.title b <> ""
  /\ match BillInput.due_date b with
     | Some d => Joi.test Validation.due_date_pattern d = true
     | None => True
     end
  /\ match BillInput.items b with
     | Some its => Forall valid_item its
     | None => True
     end.

(** A canonical decimal numeral of an integer: digits, the first of
    them not a zero unless it is the only one, after a minus sign for
    a negative integer. *)
Inductive canonical : string -> Prop :=
| canonical_zero : canonical "0"
| canonical_positive (c : ascii) (ds : string) :
    is_digit c = true -> Ascii.eqb c "0" = false -> every is_digit ds = true ->
    canonical (String c ds)
| canonical_negative (c : ascii) (ds : string) :
    is_digit c = true -> Ascii.eqb c "0" = false -> every is_digit ds = true ->
    canonical (String "-" (String c ds)).

End Spec.

Module Sample.
Import ServiceClient Express.

Definition noon : Date.t := Date.mk 2025 3 15 12 0 0 0.
Definition next_noon : Date.t := Date.mk 2025 3 16 12 0 0 0.

Definition no_answer : Thrown :=
  AxiosErr {| response := None; request := Some client_request;
              message := "socket hang up" |}.

Definition answered (code : Z) (d : json) : Thrown :=
  AxiosErr {| response := Some {| ServiceClient.status := code; data := d |};
              request := Some client_request;
              message := "Request failed" |}.

Definition milk : ParsedReceipt.t :=
  {| ParsedReceipt.items :=
       [ {| ParsedReceiptItem.name := "Milk";
            ParsedReceiptItem.quantity := 1;
            ParsedReceiptItem.price := 3.99 |} ];
     ParsedReceipt.total := 3.99;
     ParsedReceipt.currency := None;
     ParsedReceipt.date := Some "2025-03-15";
     ParsedReceipt.merchant := Some "Grocery Store" |}.

Definition milk_bill : BillInput.t :=
  {| BillInput.title := "Bill from receipt image";
     BillInput.description := Some "Created from receipt: Grocery Store";
     BillInput.due_date := Some "2025-03-15";
     BillInput.paid := Some false;
     BillInput.items :=
       Some [ {| BillItemInput.name := "Milk";
                 BillItemInput.description := Some "";
                 BillItemInput.amount := 3.99;
                 BillItemInput.quantity := Some 1%Q |} ] |}.

(** Upstreams that are down. *)
Definition down : World :=
  {| GET_bills := Rejected no_answer;
     GET_bill := fun _ => Rejected no_answer;
     POST_bills := fun _ => Rejected no_answer;
     PUT_bill := fun _ _ => Rejected no_answer;
     DELETE_bill := fun _ => Rejected no_answer;
     POST_parse_bill := fun _ _ => Rejected no_answer;
     now := noon |}.

Definition gone : Thrown :=
  answered 404 (JObj [("error", JStr "no rows in result set")]).

(** An accounts service without the bill asked for. *)
Definition no_such_bill : World :=
  {| GET_bills := Resolved (JArr []);
     GET_bill := fun _ => Rejected gone;
     POST_bills := fun _ => Resolved {| CreatedBill.id := 2 |};
     PUT_bill := fun _ _ => Rejected gone;
     DELETE_bill := fun _ => Rejected gone;
     POST_parse_bill := fun _ _ => Resolved milk;
     now := noon |}.

(** Upstreams that answer: the parser reads the milk receipt, the
    accounts service creates bill 2. *)
Definition up : World :=
  {| GET_bills := Resolved (JArr []);
     GET_bill := fun _ => Resolved (JObj [("id", JNum 1)]);
     POST_bills := fun _ => Resolved {| CreatedBill.id := 2 |};
     PUT_bill := fun _ _ => Resolved (JObj [("message", JStr "Bill updated")]);
     DELETE_bill := fun _ => Resolved (JObj [("message", JStr "Bill deleted")]);
     POST_parse_bill := fun _ _ => Resolved milk;
     now := noon |}.

Definition bills_request (id : string) (b : json) : Validation.Request :=
  {| Validation.params_id := id;
     Validation.req_query := JObj [];
     Validation.req_body := b |}.

Definition rent_99 : Validation.Request :=
  bills_request "99" (JObj [("title", JStr "Rent")]).

Definition only_title : Validation.Request :=
  bills_request "1" (JObj [("title", JStr "X")]).

Definition no_title_bad_date : Validation.Request :=
  bills_request "1" (JObj [("due_date", JStr "tomorrow")]).

Definition with_id_field : Validation.Request :=
  bills_request "1" (JObj [("title", JStr "X"); ("id", JNum 1)]).

Definition jpeg : Multer.File :=
  {| Multer.fieldname := "image";
     Multer.originalname := "test.jpg";
     Multer.mimetype := "image/jpeg";
     Multer.buffer := "test image data";
     Multer.size := 15 |}.

Definition text_file : Multer.File :=
  {| Multer.fieldname := "image";
     Multer.originalname := "notes.txt";
     Multer.mimetype := "text/plain";
     Multer.buffer := "not an image";
     Multer.size := 12 |}.

(** The milk receipt with an empty merchant, and without a date. *)
Definition blank_merchant : ParsedReceipt.t :=
  {| ParsedReceipt.items := ParsedReceipt.items milk;
     ParsedReceipt.total := ParsedReceipt.total milk;
     ParsedReceipt.currency := None;
     ParsedReceipt.date := Some "2025-03-15";
     ParsedReceipt.merchant := Some "" |}.

Definition blank_date : ParsedReceipt.t :=
  {| ParsedReceipt.items := ParsedReceipt.items milk;
     ParsedReceipt.total := ParsedReceipt.total milk;
     ParsedReceipt.currency := None;
     ParsedReceipt.date := Some "";
     ParsedReceipt.merchant := Some "Grocery Store" |}.

Definition undated : ParsedReceipt.t :=
  {| ParsedReceipt.items := ParsedReceipt.items milk;
     ParsedReceipt.total := ParsedReceipt.total milk;
     ParsedReceipt.currency := None;
     ParsedReceipt.date := None;
     ParsedReceipt.merchant := Some "Grocery Store" |}.

Definition image_only (f : Multer.File) : Multer.Form :=
  {| Multer.file_part := Some f; Multer.title_field := None |}.

Definition no_file : Multer.Form :=
  {| Multer.file_part := None; Multer.title_field := Some "Groceries" |}.

(** An accounts service that answers with what it was asked, and a
    parser that is down. *)
Definition echo : World :=
  {| GET_bills := Resolved (JArr [JObj [("id", JNum 1)]; JObj [("id", JNum 2)]]);
     GET_bill := fun id => Resolved (JObj [("id", JStr id)]);
     POST_bills := fun _ => Rejected gone;
     PUT_bill := fun id b => Resolved (JObj [("message", JStr "Bill updated")]);
     DELETE_bill := fun id => Resolved (JObj [("message", JStr "Bill deleted")]);
     POST_parse_bill := fun _ _ => Rejected no_answer;
     now := noon |}.

(** A parser that reads the milk receipt, and an accounts service
    that is down. *)
Definition accounts_down : World :=
  {| GET_bills := Rejected no_answer;
     GET_bill := fun _ => Rejected no_answer;
     POST_bills := fun _ => Rejected no_answer;
     PUT_bill := fun _ _ => Rejected no_answer;
     DELETE_bill := fun _ => Rejected no_answer;
     POST_parse_bill := fun _ _ => Resolved milk;
     now := noon |}.

(** A JPEG of six megabytes (the bytes are left out). *)
Definition huge_jpeg : Multer.File :=
  {| Multer.fieldname := "image";
     Multer.originalname := "scan.jpg";
     Multer.mimetype := "image/jpeg";
     Multer.buffer := "";
     Multer.size := 6291456 |}.

(** An accounts service that answers 404 with the body [null]. *)
Definition not_found_null : World :=
  {| GET_bills := Rejected (answered 404 JNull);
     GET_bill := fun _ => Rejected (answered 404 JNull);
     POST_bills := fun _ => Rejected (answered 404 JNull);
     PUT_bill := fun _ _ => Rejected (answered 404 JNull);
     DELETE_bill := fun _ => Rejected (answered 404 JNull);
     POST_parse_bill := fun _ _ => Resolved milk;
     now := noon |}.

(** Upstreams that answer every call with status 502 and the body
    [null]. *)
Definition null_body : World :=
  {| GET_bills := Rejected (answered 502 JNull);
     GET_bill := fun _ => Rejected (answered 502 JNull);
     POST_bills := fun _ => Rejected (answered 502 JNull);
     PUT_bill := fun _ _ => Rejected (answered 502 JNull);
     DELETE_bill := fun _ => Rejected (answered 502 JNull);
     POST_parse_bill := fun _ _ => Rejected (answered 502 JNull);
     now := noon |}.

(** The milk receipt dated the way a till prints it, and a parser
    that reads it. *)
Definition till_dated : ParsedReceipt.t :=
  {| ParsedReceipt.items := ParsedReceipt.items milk;
     ParsedReceipt.total := ParsedReceipt.total milk;
     ParsedReceipt.currency := None;
     ParsedReceipt.date := Some "15/03/2025";
     ParsedReceipt.merchant := Some "Grocery Store" |}.

Definition till : World :=
  {| GET_bills := Resolved (JArr []);
     GET_bill := fun _ => Rejected gone;
     POST_bills := fun _ => Resolved {| CreatedBill.id := 3 |};
     PUT_bill := fun _ _ => Rejected gone;
     DELETE_bill := fun _ => Rejected gone;
     POST_parse_bill := fun _ _ => Resolved till_dated;
     now := noon |}.

Definition bill_42 : Validation.Request := bills_request "42" JNull.

(** The bill of the routes' test. *)
Definition new_bill : BillInput.t :=
  {| BillInput.title := "New Bill";
     BillInput.description := Some "Test bill";
     BillInput.due_date := Some "2025-04-01";
     BillInput.paid := Some false;
     BillInput.items :=
       Some [ {| BillItemInput.name := "Item 1";
                 BillItemInput.description := Some "Test item";
                 BillItemInput.amount := 10.99;
                 BillItemInput.quantity := Some 2%Q |} ] |}.

Definition refund : BillItemInput.t :=
  {| BillItemInput.name := "Refund";
     BillItemInput.description := None;
     BillItemInput.amount := -5;
     BillItemInput.quantity := None |}.

(** A bill whose second item has a negative amount. *)
Definition bill_with_refund : BillInput.t :=
  {| BillInput.title := "New Bill";
     BillInput.description := None;
     BillInput.due_date := Some "2025-04-01";
     BillInput.paid := None;
     BillInput.items :=
       Some [ {| BillItemInput.name := "Item 1";
                 BillItemInput.description := None;
                 BillItemInput.amount := 10.99;
                 BillItemInput.quantity := None |};
              refund ] |}.

End Sample.

(* ================================================================== *)
(** * The error normaliser *)
(* ================================================================== *)

Section Normalizer.
Import ServiceClient.

Lemma get_truthy (k : string) (d v : json) : get k d = Some v -> truthy d = true.
Proof. destruct d; simpl; intros H; solve [discriminate H | reflexivity]. Qed.

Lemma error_member_hit (d v : json) :
  get "error" d = Some v -> truthy v = true -> error_member d = v.
Proof.
  intros Hget Hv. unfold error_member.
  rewrite (get_truthy _ _ _ Hget), Hget, Hv. reflexivity.
Qed.

Lemma error_member_miss (d : json) :
  (forall v, get "error" d = Some v -> truthy v = false) ->
  error_member d = JStr "Service error".
Proof.
  intros Hmiss. unfold error_member.
  destruct (truthy d); [| reflexivity].
  destruct (get "error" d) as [v |] eqn:Hget; [| reflexivity].
  rewrite (Hmiss v eq_refl). reflexivity.
Qed.

(** Whatever the upstream sent, the message of a normalised error is
    truthy: the error middleware never replaces it. *)
Lemma error_member_truthy (d : json) : truthy (error_member d) = true.
Proof.
  unfold error_member.
  destruct (truthy d); [| reflexivity].
  destruct (get "error" d) as [v |]; [| reflexivity].
  destruct (truthy v) eqn:Hv; [exact Hv | reflexivity].
Qed.

Lemma handleServiceError_message_truthy (error : Thrown) :
  truthy (ServiceError.message (handleServiceError error)) = true.
Proof.
  destruct error as [[[r |] [c |] m] | m | s]; simpl;
    solve [reflexivity | apply error_member_truthy].
Qed.

(** C2, as the spec words it, fails: an upstream body whose [error]
    member is the empty string has that member, and the message is
    "Service error" all the same. *)
Lemma handleServiceError_blank_error_member :
  let thrown := Sample.answered 400 (JObj [("error", JStr "")]) in
  ~ Spec.normalized_as_specified thrown (handleServiceError thrown).
Proof. simpl. intros H. discriminate H. Qed.

(** C2 (amended): the normaliser produces one of three shapes.  When
    the upstream answered, the status code is the answer's, the
    details are its body, and the message is the body's [error]
    member if that member is truthy (not null, false, 0 or the empty
    string) and "Service error" otherwise; when the request went out
    and no answer came, 503 "Service unavailable"; in every other
    case 500 "Error connecting to service" with the description of
    what was thrown. *)
Theorem handleServiceError_shapes : forall error : Thrown,
  let e := handleServiceError error in
  match error with
  | AxiosErr {| response := Some r |} =>
      ServiceError.statusCode e = status r
      /\ ServiceError.details e = data r
      /\ (forall v, get "error" (data r) = Some v -> truthy v = true ->
          ServiceError.message e = v)
      /\ ((forall v, get "error" (data r) = Some v -> truthy v = false) ->
          ServiceError.message e = JStr "Service error")
  | AxiosErr {| response := None; request := Some _ |} =>
      e = {| ServiceError.statusCode := 503;
             ServiceError.message := JStr "Service unavailable";
             ServiceError.details := JStr "No response received from service" |}
  | _ =>
      e = {| ServiceError.statusCode := 500;
             ServiceError.message := JStr "Error connecting to service";
             ServiceError.details := JStr (description_of error) |}
  end.
Proof.
  intros [[[r |] [c |] m] | m | s]; simpl; try reflexivity;
    (split; [reflexivity | split; [reflexivity | split]]).
  - apply error_member_hit.
  - apply error_member_miss.
  - apply error_member_hit.
  - apply error_member_miss.
Qed.

End Normalizer.

(* ================================================================== *)
(** * The bill transformation *)
(* ================================================================== *)

Section Transformation.
Import BillParser.

Lemma or_default_present (s : option string) (d : string) :
  blank s = false -> or_default s d = match s with Some v => v | None => d end.
Proof.
  destruct s as [v |]; simpl; [| reflexivity].
  intros H. rewrite H. reflexivity.
Qed.

(** C1, as the spec words it, fails: a receipt whose merchant is the
    empty string has a merchant, and the description names "Unknown
    merchant" all the same. *)
Lemma toBillInput_blank_merchant :
  ~ mapping_as_specified Sample.blank_merchant None
      (toBillInput Sample.blank_merchant None Sample.noon).
Proof.
  unfold mapping_as_specified. simpl.
  intros (_ & Hdescription & _). discriminate Hdescription.
Qed.

(** The same happens to an empty title and to an empty date: each is
    there, and each is replaced. *)
Lemma toBillInput_blank_title :
  ~ mapping_as_specified Sample.milk (Some "")
      (toBillInput Sample.milk (Some "") Sample.noon).
Proof.
  unfold mapping_as_specified. simpl.
  intros (Htitle & _). discriminate Htitle.
Qed.

Lemma toBillInput_blank_date :
  ~ mapping_as_specified Sample.blank_date None
      (toBillInput Sample.blank_date None Sample.noon).
Proof.
  unfold mapping_as_specified.
  intros (_ & _ & Hdate & _). specialize (Hdate "" eq_refl).
  vm_compute in Hdate. discriminate Hdate.
Qed.

Lemma or_default_given (s : option string) (d : string) :
  or_default s d = match given s with Some v => v | None => d end.
Proof.
  destruct s as [v |]; simpl; [| reflexivity]. destruct (v =? ""); reflexivity.
Qed.

(** C1 (amended): the bill has the supplied title (else "Bill from
    receipt image"), the description "Created from receipt: " followed
    by the merchant (or "Unknown merchant" when absent), the receipt's
    date as due date when it is present, paid false, and one item per
    receipt item with the name and quantity kept, an empty description
    and the price as amount, where an empty title, merchant or date is
    treated as absent: an empty title gives "Bill from receipt image",
    an empty merchant "Unknown merchant", and an empty date is not the
    due date.  So when none of the three is the empty string the
    mapping is the one the spec words; and the milk receipt without a
    title gives the bill of the spec's example. *)
Theorem toBillInput_mapping :
  forall (parsed : ParsedReceipt.t) (title : option string) (now : Date.t),
    mapping_as_amended parsed title (toBillInput parsed title now)
    /\ (blank title = false ->
        blank (ParsedReceipt.merchant parsed) = false ->
        blank (ParsedReceipt.date parsed) = false ->
        mapping_as_specified parsed title (toBillInput parsed title now))
    /\ BillInput.title (toBillInput parsed (Some "") now) = "Bill from receipt image"
    /\ (ParsedReceipt.merchant parsed = Some "" ->
        BillInput.description (toBillInput parsed title now)
        = Some "Created from receipt: Unknown merchant")
    /\ (ParsedReceipt.date parsed = Some "" ->
        BillInput.due_date (toBillInput parsed title now) = Some (today now))
    /\ toBillInput Sample.milk None now = Sample.milk_bill.
Proof.
  intros parsed title now.
  assert (Hamended : mapping_as_amended parsed title (toBillInput parsed title now)).
  { unfold mapping_as_amended, toBillInput, billData. simpl.
    rewrite <- !or_default_given. repeat split.
    intros d Hd. rewrite or_default_given, Hd. reflexivity. }
  split; [exact Hamended |]. split; [| split; [| split; [| split]]].
  - intros Htitle Hmerchant Hdate.
    unfold mapping_as_specified, toBillInput, billData. simpl.
    rewrite (or_default_present _ _ Htitle), (or_default_present _ _ Hmerchant).
    repeat split.
    intros d Hd. rewrite (or_default_present _ _ Hdate), Hd. reflexivity.
  - reflexivity.
  - intros Hmerchant. unfold toBillInput, billData. simpl. rewrite Hmerchant. reflexivity.
  - intros Hdate. unfold toBillInput, billData. simpl. rewrite Hdate. reflexivity.
  - reflexivity.
Qed.

End Transformation.

Section Clock.
Import BillParser.

Lemma every_app (p : ascii -> bool) (a b : string) :
  every p (a ++ b) = every p a && every p b.
Proof.
  induction a as [| c a IH]; simpl; [reflexivity |].
  rewrite IH. apply andb_assoc.
Qed.

Lemma split_head_app (p : ascii -> bool) (c : ascii) (a b : string) :
  every p a = true -> p c = false -> split_head c (a ++ String c b) = a.
Proof.
  intros Ha Hc. induction a as [| x a IH]; simpl.
  - rewrite Ascii.eqb_refl. reflexivity.
  - simpl in Ha. apply andb_true_iff in Ha as [Hx Ha].
    destruct (Ascii.eqb_spec x c) as [-> | _].
    + rewrite Hc in Hx. discriminate Hx.
    + rewrite (IH Ha). reflexivity.
Qed.

Lemma every_weaken (p q : ascii -> bool) (s : string) :
  (forall c, p c = true -> q c = true) -> every p s = true -> every q s = true.
Proof.
  intros Hpq. induction s as [| c s IH]; simpl; [reflexivity |].
  intros H. apply andb_true_iff in H as [Hc Hs].
  rewrite (Hpq c Hc), (IH Hs). reflexivity.
Qed.

Lemma uint_digits (u : Decimal.uint) : every is_digit (NilEmpty.string_of_uint u) = true.
Proof. induction u; simpl; try rewrite IHu; reflexivity. Qed.

Lemma digits_digits (n : Z) : every is_digit (Date.digits n) = true.
Proof.
  unfold Date.digits, NilZero.string_of_uint.
  destruct (N.to_uint (Z.to_N n)) eqn:E; try reflexivity;
    rewrite <- E; pose proof (uint_digits (N.to_uint (Z.to_N n))) as H;
    rewrite E in *; exact H.
Qed.

Lemma zeros_digits (k : nat) : every is_digit (Date.zeros k) = true.
Proof. induction k as [| k IH]; simpl; [reflexivity | exact IH]. Qed.

Lemma pad_digits (w : nat) (n : Z) : every is_digit (Date.pad w n) = true.
Proof.
  unfold Date.pad. rewrite every_app, zeros_digits, digits_digits. reflexivity.
Qed.

Lemma digit_date_char (c : ascii) : is_digit c = true -> Date.date_char c = true.
Proof. unfold Date.date_char. intros ->. reflexivity. Qed.

Lemma pad_date_chars (w : nat) (n : Z) : every Date.date_char (Date.pad w n) = true.
Proof. apply (every_weaken is_digit); [exact digit_date_char | apply pad_digits]. Qed.

Lemma year_string_chars (y : Z) : every Date.date_char (Date.year_string y) = true.
Proof.
  unfold Date.year_string.
  destruct (_ && _); [apply pad_date_chars |].
  rewrite every_app, pad_date_chars.
  destruct (_ <? _)%Z; reflexivity.
Qed.

Lemma date_string_chars (d : Date.t) : every Date.date_char (Date.date_string d) = true.
Proof.
  unfold Date.date_string.
  rewrite !every_app, !pad_date_chars, year_string_chars. reflexivity.
Qed.

(** The date the handler falls back to is the date part of the ISO
    string. *)
Lemma today_date_string (now : Date.t) : today now = Date.date_string now.
Proof.
  unfold today, Date.toISOString.
  apply (split_head_app Date.date_char); [apply date_string_chars | reflexivity].
Qed.

Lemma below_forallb (P : Z -> bool) (k : Z) :
  forallb (fun n => P (Z.of_nat n)) (seq 0 (Z.to_nat k)) = true ->
  forall z, (0 <= z < k)%Z -> P z = true.
Proof.
  intros H z Hz. rewrite forallb_forall in H.
  specialize (H (Z.to_nat z)). rewrite Z2Nat.id in H by lia.
  apply H, in_seq. lia.
Qed.

Lemma pad4_shape (y : Z) :
  (0 <= y <= 9999)%Z -> Date.digits_exactly 4 (Date.pad 4 y) = true.
Proof.
  intros Hy.
  apply (below_forallb (fun z => Date.digits_exactly 4 (Date.pad 4 z)) 10000);
    [vm_compute; reflexivity | lia].
Qed.

Lemma pad2_shape (n : Z) :
  (0 <= n <= 99)%Z -> Date.digits_exactly 2 (Date.pad 2 n) = true.
Proof.
  intros Hn.
  apply (below_forallb (fun z => Date.digits_exactly 2 (Date.pad 2 z)) 100);
    [vm_compute; reflexivity | lia].
Qed.

Ltac peel s :=
  destruct s as [| ? s]; cbn in *; try discriminate.

Lemma date_shape_matches (a b c : string) :
  Date.digits_exactly 4 a = true ->
  Date.digits_exactly 2 b = true ->
  Date.digits_exactly 2 c = true ->
  Joi.test Validation.due_date_pattern (a ++ "-" ++ b ++ "-" ++ c) = true.
Proof.
  unfold Date.digits_exactly. intros Ha Hb Hc.
  apply andb_true_iff in Ha as [La Da], Hb as [Lb Db], Hc as [Lc Dc].
  do 5 peel a. do 3 peel b. do 3 peel c.
  repeat match goal with
         | H : _ && _ = true |- _ => apply andb_true_iff in H as [? ?]
         end.
  repeat match goal with
         | H : is_digit _ = true |- _ => rewrite H; clear H
         end.
  reflexivity.
Qed.

(** On a calendar day of the years 0 to 9999 the date has the shape
    the bill schema asks of a due date. *)
Lemma date_string_matches (d : Date.t) :
  Spec.calendar d -> Joi.test Validation.due_date_pattern (Date.date_string d) = true.
Proof.
  intros (Hy & Hm & Hd). unfold Date.date_string, Date.year_string.
  replace ((0 <=? Date.year d)%Z && (Date.year d <=? 9999)%Z) with true
    by (symmetry; apply andb_true_iff; split; apply Z.leb_le; lia).
  apply date_shape_matches; [apply pad4_shape | apply pad2_shape ..]; lia.
Qed.

(** C7, as the spec words it, fails: two runs on the same receipt
    without a date and the same (absent) title, one day apart, give
    different bills. *)
Lemma toBillInput_reads_the_clock :
  toBillInput Sample.undated None Sample.noon
  <> toBillInput Sample.undated None Sample.next_noon.
Proof. intros H. vm_compute in H. discriminate H. Qed.

(** C7 (amended): the bill transformation is total, and it is a
    function of the receipt, the optional title and the current UTC
    date: two runs on the same input on the same day yield the same
    bill, and when the receipt has a non-empty date the clock does not
    matter at all.  When the date is absent (or empty), the due date
    is the current date, and on a calendar day of the years 0 to 9999
    it has the form YYYY-MM-DD. *)
Theorem toBillInput_clock :
  forall (parsed : ParsedReceipt.t) (title : option string),
    (forall now1 now2,
        Date.date_string now1 = Date.date_string now2 ->
        toBillInput parsed title now1 = toBillInput parsed title now2)
    /\ (forall d now1 now2,
        ParsedReceipt.date parsed = Some d -> d <> "" ->
        toBillInput parsed title now1 = toBillInput parsed title now2)
    /\ (forall now,
        ParsedReceipt.date parsed = None \/ ParsedReceipt.date parsed = Some "" ->
        BillInput.due_date (toBillInput parsed title now) = Some (Date.date_string now)
        /\ (Spec.calendar now ->
            Joi.test Validation.due_date_pattern (Date.date_string now) = true)).
Proof.
  intros parsed title. unfold toBillInput, billData. split; [| split].
  - intros now1 now2 Hday. rewrite !today_date_string, Hday. reflexivity.
  - intros d now1 now2 Hd Hne. rewrite Hd. simpl.
    destruct (String.eqb_spec d "") as [-> | _]; [contradiction | reflexivity].
  - intros now Hdate. split; [| apply date_string_matches].
    simpl. rewrite today_date_string. destruct Hdate as [-> | ->]; reflexivity.
Qed.

End Clock.

(* ================================================================== *)
(** * Validation *)
(* ================================================================== *)

Section SchemaFacts.






Section LoopFacts.

Variables vt vf : Joi.Schema -> list Joi.PathSeg -> option json -> Joi.Outcome.
Variable p : list Joi.PathSeg.



End LoopFacts.



(** An object with a key that the schema does not name is in error,
    whatever its other members are. *)
Lemma unknown_key_rejected (children : list (string * Joi.Schema))
    (fields : list (string * json)) (k : string) :
  In k (keys fields) ->
  ~ In k (map fst children) ->
  Joi.error (Joi.validate (Joi.object children) (JObj fields)) <> None.
Proof.
  intros Hin Hout.
  unfold Joi.validate, Joi.validate_with, Joi.object. simpl.
  destruct (Joi.each_key _ _ _ _ _) as [es value].
  destruct es as [| d es]; [| discriminate].
  unfold Joi.unknown_reports, Joi.first_only. simpl.
  assert (Hk : In k (Joi.unknown_keys children fields)).
  { unfold Joi.unknown_keys. apply filter_In. split; [exact Hin |].
    apply negb_true_iff. apply not_true_iff_false. intros E.
    apply existsb_exists in E as (k' & Hk' & Heq).
    apply String.eqb_eq in Heq. subst k'. contradiction. }
  destruct (Joi.unknown_keys children fields) as [| k0 ks]; [destruct Hk |].
  simpl. discriminate.
Qed.


End SchemaFacts.

(* ================================================================== *)
(** * The routes *)
(* ================================================================== *)

Section Routes.
Import ServiceClient Express Validation.

Lemma validate_pass (s : Joi.Schema) (p : Property) (req : Request) (log : list Call) :
  Joi.error (Joi.validate s (prop req p)) = None ->
  validate s p req log = (Next, log).
Proof. unfold validate. intros ->. reflexivity. Qed.

Lemma validate_fail (s : Joi.Schema) (p : Property) (req : Request) (log : list Call)
    (details : list Joi.Detail) :
  Joi.error (Joi.validate s (prop req p)) = Some details ->
  validate s p req log = (Respond (rejection details), log).
Proof. unfold validate. intros ->. reflexivity. Qed.

(** A normalised error passes the error middleware unchanged: its
    status code is not 0 and its message is truthy. *)
Lemma returned_passes (thrown : Thrown) (e : ServiceError.t) :
  Spec.well_formed thrown ->
  ServiceClientJs.caught thrown = ServiceClientJs.Returned e ->
  App.errorHandler (ServiceFailure e)
  = {| status := ServiceError.statusCode e; body := error_body (ServiceError.message e) |}.
Proof.
  intros Hwf He. unfold App.errorHandler. simpl.
  assert (Hfacts : truthy (ServiceError.message e) = true
                   /\ ServiceError.statusCode e <> 0%Z).
  { destruct thrown as [[[[code d] |] [c |] m] | m | s];
      simpl in He, Hwf; unfold Spec.http_status in Hwf.
    1, 2: destruct d; cbn in He; try discriminate He; injection He as <-; cbn;
      (split; [| lia]); try reflexivity;
      (destruct (assoc "error" fields) as [v |]; [| reflexivity]);
      (destruct (truthy v) eqn:E; [exact E | reflexivity]).
    all: injection He as <-; split; [reflexivity | discriminate]. }
  destruct Hfacts as [Hmessage Hcode]. rewrite Hmessage.
  destruct (Z.eqb_spec (ServiceError.statusCode e) 0); [contradiction | reflexivity].
Qed.

(** The [TypeError] of the normaliser is answered 500 with the text of
    the engine. *)
Lemma type_error_answer :
  App.errorHandler (raised ServiceClientJs.TypeErrorThrown)
  = {| status := 500; body := error_body (JStr ServiceClientJs.type_error_message) |}.
Proof. reflexivity. Qed.

(** A failure that a handler passes to [next] as it caught it is
    answered with the status code and the message of the normalised
    error, or 500 with the text of the [TypeError]. *)
Lemma caught_passes (thrown : Thrown) :
  Spec.well_formed thrown ->
  App.errorHandler (raised (ServiceClientJs.caught thrown))
  = match ServiceClientJs.caught thrown with
    | ServiceClientJs.Returned e =>
        {| status := ServiceError.statusCode e;
           body := JObj [("error", ServiceError.message e)] |}
    | ServiceClientJs.TypeErrorThrown =>
        {| status := 500;
           body := JObj [("error", JStr "Cannot read properties of null (reading 'error')")] |}
    end.
Proof.
  intros Hwf. destruct (ServiceClientJs.caught thrown) as [e |] eqn:E; [| reflexivity].
  apply (returned_passes thrown e Hwf E).
Qed.

(** C3: on GET, PUT and DELETE /bills/{id}, when the upstream call
    fails with a normalised ServiceError, that error decides the
    answer: status code 404 gives HTTP 404 with body {error: "Bill not
    found"}, whatever the upstream's own message was; any other error
    is passed on with its own status code and {error: message}.  In
    each case the one upstream call is the only one made.  The
    normaliser is the one the route files load (serviceClient.js). *)
Theorem not_found_override :
  forall (w : World) (req : Request) (thrown : Thrown) (e : ServiceError.t),
    Joi.error (Joi.validate idParamSchema (prop req Params)) = None ->
    Spec.well_formed thrown ->
    ServiceClientJs.caught thrown = ServiceClientJs.Returned e ->
    let id := params_id req in
    let answer :=
      if (ServiceError.statusCode e =? 404)%Z
      then {| status := 404; body := JObj [("error", JStr "Bill not found")] |}
      else {| status := ServiceError.statusCode e;
              body := JObj [("error", ServiceError.message e)] |} in
    (ServiceClient.GET_bill w id = Rejected thrown ->
     App.GET_bill w req = (answer, [GetBillById id]))
    /\ (Joi.error (Joi.validate billSchema (prop req Body)) = None ->
        ServiceClient.PUT_bill w id (req_body req) = Rejected thrown ->
        App.PUT_bill w req = (answer, [UpdateBill id (req_body req)]))
    /\ (ServiceClient.DELETE_bill w id = Rejected thrown ->
        App.DELETE_bill w req = (answer, [DeleteBill id])).
Proof.
  intros w req thrown e Hid Hwf He id answer.
  assert (Hsettle : forall log,
             (let '(a, log') :=
                match Bills.not_found_or_next (ServiceClientJs.Returned e) with
                | Next => ret Next
                | _ => ret (Bills.not_found_or_next (ServiceClientJs.Returned e))
                end log in ret (App.finish a) log') = (answer, log)).
  { intros log. unfold Bills.not_found_or_next, answer.
    destruct (_ =? 404)%Z; simpl; [reflexivity |].
    unfold ret. f_equal. apply (returned_passes thrown); assumption. }
  repeat split.
  - intros Hcall.
    unfold App.GET_bill, App.serve, run, Bills.get_by_id, chain, bind.
    rewrite (validate_pass _ _ _ _ Hid).
    unfold accountsService.getBillById, attempt. fold id. rewrite Hcall, He.
    apply Hsettle.
  - intros Hbody Hcall.
    unfold App.PUT_bill, App.serve, run, Bills.put, chain, bind.
    rewrite (validate_pass _ _ _ _ Hid), (validate_pass _ _ _ _ Hbody).
    unfold accountsService.updateBill, attempt. fold id. rewrite Hcall, He.
    apply Hsettle.
  - intros Hcall.
    unfold App.DELETE_bill, App.serve, run, Bills.delete, chain, bind.
    rewrite (validate_pass _ _ _ _ Hid).
    unfold accountsService.deleteBill, attempt. fold id. rewrite Hcall, He.
    apply Hsettle.
Qed.

Lemma not_found_override_witness :
  let answer := {| status := 404; body := JObj [("error", JStr "Bill not found")] |} in
  App.GET_bill Sample.no_such_bill Sample.rent_99 = (answer, [GetBillById "99"])
  /\ App.PUT_bill Sample.no_such_bill Sample.rent_99
     = (answer, [UpdateBill "99" (JObj [("title", JStr "Rent")])])
  /\ App.DELETE_bill Sample.no_such_bill Sample.rent_99 = (answer, [DeleteBill "99"]).
Proof.
  destruct (not_found_override Sample.no_such_bill Sample.rent_99 Sample.gone
              {| ServiceError.statusCode := 404;
                 ServiceError.message := JStr "no rows in result set";
                 ServiceError.details := JObj [("error", JStr "no rows in result set")] |})
    as (Hget & Hput & Hdelete);
    [reflexivity | simpl; unfold Spec.http_status; lia | reflexivity |].
  split; [apply Hget; reflexivity |].
  split; [apply Hput; reflexivity | apply Hdelete; reflexivity].
Defined.

Ltac run_chain :=
  unfold App.GET_bill, App.POST_bill, App.PUT_bill, App.DELETE_bill, App.serve, run,
    Bills.get_by_id, Bills.post, Bills.put, Bills.delete, chain, bind.

Lemma stopped_at_body (w : World) (req : Request) (details : list Joi.Detail) :
  Joi.error (Joi.validate billSchema (prop req Body)) = Some details ->
  App.POST_bill w req = (rejection details, []).
Proof. intros H. run_chain. rewrite (validate_fail _ _ _ _ _ H). reflexivity. Qed.

Lemma stopped_at_id (w : World) (req : Request) (details : list Joi.Detail) :
  Joi.error (Joi.validate idParamSchema (prop req Params)) = Some details ->
  App.GET_bill w req = (rejection details, [])
  /\ App.PUT_bill w req = (rejection details, [])
  /\ App.DELETE_bill w req = (rejection details, []).
Proof.
  intros H. run_chain. rewrite !(validate_fail _ _ _ _ _ H). repeat split.
Qed.

Lemma put_stopped_at_body (w : World) (req : Request) (details : list Joi.Detail) :
  Joi.error (Joi.validate idParamSchema (prop req Params)) = None ->
  Joi.error (Joi.validate billSchema (prop req Body)) = Some details ->
  App.PUT_bill w req = (rejection details, []).
Proof.
  intros Hid H. run_chain.
  rewrite (validate_pass _ _ _ _ Hid), (validate_fail _ _ _ _ _ H). reflexivity.
Qed.

(** C5 (the code at a failing input): the middleware joins the
    messages of [error.details] with ", ", but it calls
    [schema.validate] without [abortEarly: false], so the details are
    never more than one.  A bill without a title and with a malformed
    due date violates two rules; the answer is 400 with the first
    message alone, where the spec promises both, comma-joined.
    Nothing is called upstream. *)
Theorem validation_reports_first_violation_only :
  let title_required := Joi.dquote ++ "title" ++ Joi.dquote ++ " is required" in
  let due_date_malformed :=
    Joi.dquote ++ "due_date" ++ Joi.dquote ++ " with value " ++ Joi.dquote ++ "tomorrow"
    ++ Joi.dquote ++ " fails to match the required pattern: /^\d{4}-\d{2}-\d{2}$/" in
  req_body Sample.no_title_bad_date = JObj [("due_date", JStr "tomorrow")]
  /\ map Joi.message (Spec.all_violations billSchema (req_body Sample.no_title_bad_date))
     = [title_required; due_date_malformed]
  /\ Spec.all_messages billSchema (req_body Sample.no_title_bad_date)
     = JObj [("error", JStr (title_required ++ ", " ++ due_date_malformed))]
  /\ App.POST_bill Sample.down Sample.no_title_bad_date
     = ({| status := 400; body := JObj [("error", JStr title_required)] |}, [])
  /\ App.PUT_bill Sample.down Sample.no_title_bad_date
     = ({| status := 400; body := JObj [("error", JStr title_required)] |}, []).
Proof. repeat split. Qed.



(** C10: a creation or update payload with a top-level field that the
    bill schema does not name (id, total, item_count, created_at, or
    any other key) is answered 400 by the validator, and nothing is
    called upstream: the field is neither stripped nor forwarded. *)
Theorem unknown_field_rejected :
  forall (w : World) (req : Request) (fields : list (string * json)) (k : string),
    req_body req = JObj fields ->
    In k (keys fields) ->
    ~ In k ["title"; "description"; "due_date"; "paid"; "items"] ->
    (exists m,
        App.POST_bill w req = ({| status := 400; body := JObj [("error", JStr m)] |}, []))
    /\ (exists m,
        App.PUT_bill w req = ({| status := 400; body := JObj [("error", JStr m)] |}, [])).
Proof.
  intros w req fields k Hbody Hin Hout.
  assert (Herror : Joi.error (Joi.validate billSchema (JObj fields)) <> None).
  { unfold billSchema. apply (unknown_key_rejected _ fields k Hin). exact Hout. }
  rewrite <- Hbody in Herror.
  change (req_body req) with (prop req Body) in Herror.
  destruct (Joi.error (Joi.validate billSchema (prop req Body))) as [details |] eqn:E;
    [| contradiction].
  split.
  - eexists. apply (stopped_at_body w req details E).
  - destruct (Joi.error (Joi.validate idParamSchema (prop req Params)))
      as [details' |] eqn:Eid.
    + eexists. apply (stopped_at_id w req details' Eid).
    + eexists. apply (put_stopped_at_body w req details Eid E).
Qed.

Lemma unknown_field_rejected_witness :
  (exists m,
      App.POST_bill Sample.up Sample.with_id_field
      = ({| status := 400; body := JObj [("error", JStr m)] |}, []))
  /\ (exists m,
      App.PUT_bill Sample.up Sample.with_id_field
      = ({| status := 400; body := JObj [("error", JStr m)] |}, [])).
Proof.
  apply (unknown_field_rejected Sample.up Sample.with_id_field
           [("title", JStr "X"); ("id", JNum 1)] "id").
  - reflexivity.
  - simpl. right. left. reflexivity.
  - simpl. intros [H | [H | [H | [H | [H | []]]]]]; discriminate H.
Defined.

(** C8 (the code at a failing input): the create and update handlers
    forward the request body as it came.  For the body {title: "X"}
    the validation computes a value with paid: false, the middleware
    drops that value, and createBill receives a payload without
    paid. *)
Theorem bill_body_forwarded_as_received :
  (forall (w : World) (req : Request),
      Joi.error (Joi.validate billSchema (prop req Body)) = None ->
      snd (App.POST_bill w req) = [CreateBill (req_body req)]
      /\ (Joi.error (Joi.validate idParamSchema (prop req Params)) = None ->
          snd (App.PUT_bill w req) = [UpdateBill (params_id req) (req_body req)]))
  /\ App.POST_bill Sample.up Sample.only_title
     = ({| status := 201; body := JObj [("id", JNum 2)] |},
        [CreateBill (JObj [("title", JStr "X")])])
  /\ Joi.value (Joi.validate billSchema (req_body Sample.only_title))
     = Some (JObj [("title", JStr "X"); ("paid", JBool false)])
  /\ get "paid" (JObj [("title", JStr "X")]) = None.
Proof.
  split; [| repeat split].
  intros w req Hbody. split.
  - run_chain. rewrite (validate_pass _ _ _ _ Hbody).
    unfold accountsService.createBill, attempt.
    destruct (POST_bills w (req_body req)); reflexivity.
  - intros Hid. run_chain.
    rewrite (validate_pass _ _ _ _ Hid), (validate_pass _ _ _ _ Hbody).
    unfold accountsService.updateBill, attempt.
    destruct (ServiceClient.PUT_bill w (params_id req) (req_body req)) as [d | thrown];
      [reflexivity |].
    simpl. destruct (ServiceClientJs.caught thrown) as [e |]; simpl;
      [destruct (_ =? 404)%Z |]; reflexivity.
Qed.

End Routes.

Section ParserRoutes.
Import ServiceClient Express Multer BillParser.

Lemma with_upload_accepted (handler : Request -> Eff Step) (form : Form) (req : Request) :
  single upload "image" form = inr req -> with_upload handler form = handler req.
Proof. unfold with_upload. intros ->. reflexivity. Qed.

Lemma single_without_file (o : Options) (name : string) (form : Form) :
  file_part form = None -> single o name form = inr (without_file form).
Proof. unfold single. intros ->. reflexivity. Qed.

(** C6: a request to either parser route without a file part is
    answered 400 {error: "No image file provided"}, and no upstream
    call is made. *)
Theorem no_image_no_call :
  forall (w : World) (form : Form),
    file_part form = None ->
    let answer :=
      {| status := 400; body := JObj [("error", JStr "No image file provided")] |} in
    App.POST_parse_bill w form = (answer, [])
    /\ App.POST_create_bill_from_image w form = (answer, []).
Proof.
  intros w form Hnone answer.
  unfold App.POST_parse_bill, App.POST_create_bill_from_image, App.serve, run, bind,
    parse_bill, create_bill_from_image.
  rewrite !(with_upload_accepted _ _ _ (single_without_file _ _ _ Hnone)).
  split; reflexivity.
Qed.

Lemma no_image_no_call_witness :
  let answer :=
    {| status := 400; body := JObj [("error", JStr "No image file provided")] |} in
  App.POST_parse_bill Sample.up Sample.no_file = (answer, [])
  /\ App.POST_create_bill_from_image Sample.up Sample.no_file = (answer, []).
Proof. apply (no_image_no_call Sample.up Sample.no_file). reflexivity. Defined.

(** The bill that the second route sends, member by member. *)
Lemma bill_payload (parsed : ParsedReceipt.t) (title : option string) (now : Date.t) :
  BillInput.to_json (toBillInput parsed title now)
  = JObj [("title", JStr (or_default title "Bill from receipt image"));
          ("description",
           JStr ("Created from receipt: "
                 ++ or_default (ParsedReceipt.merchant parsed) "Unknown merchant"));
          ("due_date", JStr (or_default (ParsedReceipt.date parsed) (today now)));
          ("paid", JBool false);
          ("items",
           JArr (map (fun item =>
                        JObj [("name", JStr (ParsedReceiptItem.name item));
                              ("description", JStr "");
                              ("amount", JNum (ParsedReceiptItem.price item));
                              ("quantity", JNum (ParsedReceiptItem.quantity item))])
                     (ParsedReceipt.items parsed)))].
Proof.
  unfold toBillInput, billData, BillInput.to_json. simpl.
  rewrite map_map. reflexivity.
Qed.

(** The receipt in an answer, member by member. *)
Lemma receipt_members (parsed : ParsedReceipt.t) :
  let parsedData := ParsedReceipt.to_json parsed in
  get "items" parsedData
  = Some (JArr (map (fun item =>
                       JObj [("name", JStr (ParsedReceiptItem.name item));
                             ("quantity", JNum (ParsedReceiptItem.quantity item));
                             ("price", JNum (ParsedReceiptItem.price item))])
                    (ParsedReceipt.items parsed)))
  /\ get "total" parsedData = Some (JNum (ParsedReceipt.total parsed))
  /\ get "currency" parsedData = option_map JStr (ParsedReceipt.currency parsed)
  /\ get "date" parsedData = option_map JStr (ParsedReceipt.date parsed)
  /\ get "merchant" parsedData = option_map JStr (ParsedReceipt.merchant parsed).
Proof.
  destruct parsed as [items total [c |] [d |] [m |]]; repeat split.
Qed.

(** C4: on POST /parser/create-bill-from-image with an attached image
    the handler calls parseBillImage first; createBill is called only
    after the parse resolved, with the bill obtained from the parse
    result and the optional title (title, description, due_date, paid
    and items as the transformation sets them); and when both calls
    resolve the answer is 201 {message, billId, parsedData} with the
    id createBill returned and the receipt the parser returned, its
    items, total, currency, date and merchant as they came. *)
Theorem create_bill_from_image_flow :
  forall (w : World) (form : Form) (req : Request) (f : File),
    single upload "image" form = inr req ->
    file req = Some f ->
    let parse := ParseBillImage (buffer f) (originalname f) in
    let payload parsed :=
      JObj [("title", JStr (or_default (body_title req) "Bill from receipt image"));
            ("description",
             JStr ("Created from receipt: "
                   ++ or_default (ParsedReceipt.merchant parsed) "Unknown merchant"));
            ("due_date", JStr (or_default (ParsedReceipt.date parsed) (today (now w))));
            ("paid", JBool false);
            ("items",
             JArr (map (fun item =>
                          JObj [("name", JStr (ParsedReceiptItem.name item));
                                ("description", JStr "");
                                ("amount", JNum (ParsedReceiptItem.price item));
                                ("quantity", JNum (ParsedReceiptItem.quantity item))])
                       (ParsedReceipt.items parsed)))] in
    (forall parsed created,
        ServiceClient.POST_parse_bill w (buffer f) (originalname f) = Resolved parsed ->
        POST_bills w (payload parsed) = Resolved created ->
        let parsedData := ParsedReceipt.to_json parsed in
        App.POST_create_bill_from_image w form
        = ({| status := 201;
              body := JObj [("message",
                             JStr "Bill created successfully from parsed image");
                            ("billId", JNum (CreatedBill.id created));
                            ("parsedData", parsedData)] |},
           [parse; CreateBill (payload parsed)])
          /\ get "items" parsedData
             = Some (JArr (map (fun item =>
                                  JObj [("name", JStr (ParsedReceiptItem.name item));
                                        ("quantity", JNum (ParsedReceiptItem.quantity item));
                                        ("price", JNum (ParsedReceiptItem.price item))])
                               (ParsedReceipt.items parsed)))
          /\ get "total" parsedData = Some (JNum (ParsedReceipt.total parsed))
          /\ get "currency" parsedData = option_map JStr (ParsedReceipt.currency parsed)
          /\ get "date" parsedData = option_map JStr (ParsedReceipt.date parsed)
          /\ get "merchant" parsedData = option_map JStr (ParsedReceipt.merchant parsed))
    /\ (exists rest,
          snd (App.POST_create_bill_from_image w form) = parse :: rest
          /\ (rest = []
              \/ exists parsed,
                   ServiceClient.POST_parse_bill w (buffer f) (originalname f)
                   = Resolved parsed
                   /\ rest = [CreateBill (payload parsed)])).
Proof.
  intros w form req f Hupload Hfile parse payload.
  assert (Hpayload : forall parsed,
             BillInput.to_json
               (billData (or_default (body_title req) "Bill from receipt image")
                  parsed (now w))
             = payload parsed)
    by (intros parsed; apply (bill_payload parsed (body_title req) (now w))).
  unfold App.POST_create_bill_from_image, App.serve, run, bind, create_bill_from_image.
  rewrite (with_upload_accepted _ _ _ Hupload).
  unfold create_bill_from_image_handler. rewrite Hfile.
  unfold bind, billParserService.parseBillImage, accountsService.createBill, attempt.
  split.
  - intros parsed created Hparse Hcreate.
    rewrite Hparse, Hpayload, Hcreate.
    split; [reflexivity | apply receipt_members].
  - destruct (ServiceClient.POST_parse_bill w (buffer f) (originalname f))
      as [parsed | thrown] eqn:Hparse.
    + exists [CreateBill (payload parsed)]. rewrite Hpayload.
      destruct (POST_bills w _); simpl;
        (split; [| right; exists parsed; split; reflexivity]).
      * reflexivity.
      * destruct (ServiceClientJs.caught error); reflexivity.
    + exists []. simpl.
      split; [destruct (ServiceClientJs.caught thrown); reflexivity | left; reflexivity].
Qed.

Lemma create_bill_from_image_flow_witness :
  App.POST_create_bill_from_image Sample.up (Sample.image_only Sample.jpeg)
  = ({| status := 201;
        body := JObj [("message", JStr "Bill created successfully from parsed image");
                      ("billId", JNum 2);
                      ("parsedData",
                       JObj [("items", JArr [JObj [("name", JStr "Milk");
                                                   ("quantity", JNum 1);
                                                   ("price", JNum 3.99)]]);
                             ("total", JNum 3.99);
                             ("date", JStr "2025-03-15");
                             ("merchant", JStr "Grocery Store")])] |},
     [ParseBillImage "test image data" "test.jpg";
      CreateBill
        (JObj [("title", JStr "Bill from receipt image");
               ("description", JStr "Created from receipt: Grocery Store");
               ("due_date", JStr "2025-03-15");
               ("paid", JBool false);
               ("items", JArr [JObj [("name", JStr "Milk");
                                     ("description", JStr "");
                                     ("amount", JNum 3.99);
                                     ("quantity", JNum 1)]])])]).
Proof.
  destruct (create_bill_from_image_flow Sample.up (Sample.image_only Sample.jpeg)
              {| file := Some Sample.jpeg; body_title := None |} Sample.jpeg)
    as [Hresolved _]; [reflexivity | reflexivity |].
  destruct (Hresolved Sample.milk {| CreatedBill.id := 2 |})
    as (Hanswer & _); [reflexivity | reflexivity |].
  exact Hanswer.
Defined.

(** C9 (the code at a failing input): a file part named [image] that
    is not of an image media type, or is larger than 5 MiB, is turned
    down by the upload middleware before the handler runs, so nothing
    is called upstream; the error middleware then answers 500, not a
    400-class status.  So it is for a text file posted to either
    parser route. *)
Theorem turned_down_upload_answers_500 :
  (forall (w : World) (form : Form) (f : File),
      file_part form = Some f ->
      originalname f <> "" ->
      fieldname f = "image" ->
      startsWith "image/" (mimetype f) = false \/ (5 * 1024 * 1024 < size f)%Z ->
      exists m,
        App.POST_parse_bill w form
        = ({| status := 500; body := JObj [("error", JStr m)] |}, [])
        /\ App.POST_create_bill_from_image w form
           = ({| status := 500; body := JObj [("error", JStr m)] |}, []))
  /\ App.POST_parse_bill Sample.up (Sample.image_only Sample.text_file)
     = ({| status := 500; body := JObj [("error", JStr "Only image files are allowed")] |},
        [])
  /\ App.POST_create_bill_from_image Sample.up (Sample.image_only Sample.text_file)
     = ({| status := 500; body := JObj [("error", JStr "Only image files are allowed")] |},
        []).
Proof.
  split; [| split; reflexivity].
  intros w form f Hpart Hname Hfield Hbad.
  unfold App.POST_parse_bill, App.POST_create_bill_from_image, App.serve, run, bind,
    parse_bill, create_bill_from_image, with_upload, single.
  rewrite Hpart, Hfield.
  destruct (String.eqb_spec (originalname f) "") as [E | _]; [contradiction |].
  simpl.
  destruct (startsWith "image/" (mimetype f)) eqn:Hmime; simpl.
  - destruct Hbad as [Hbad | Hbig]; [discriminate Hbad |].
    assert (Hlimit : (5242880 <=? size f)%Z = true) by (apply Z.leb_le; lia).
    change (5 * 1024 * 1024 <=? size f)%Z with (5242880 <=? size f)%Z.
    rewrite Hlimit.
    exists "File too large". split; reflexivity.
  - exists "Only image files are allowed". split; reflexivity.
Qed.

End ParserRoutes.

(* ================================================================== *)
(** * Further properties: the error path *)
(* ================================================================== *)

Section ErrorPath.
Import ServiceClient Express.

(** X1: whatever reaches the error middleware, the answer has a
    status code other than 0 and a body {error: v} with v truthy; an
    [Error] without a status code is answered 500, with its own
    message unless that is empty. *)
Theorem errorHandler_never_blank :
  forall err : Failure,
    status (App.errorHandler err) <> 0%Z
    /\ (exists v, body (App.errorHandler err) = JObj [("error", v)] /\ truthy v = true)
    /\ (forall m, err = ErrorObject m ->
        App.errorHandler err
        = {| status := 500;
             body := JObj [("error", JStr (if m =? "" then "Internal Server Error" else m))] |}).
Proof.
  intros err. unfold App.errorHandler. split; [| split].
  - destruct err as [e | m]; simpl; [| discriminate].
    destruct (Z.eqb_spec (ServiceError.statusCode e) 0); [discriminate | assumption].
  - eexists. split; [reflexivity |].
    destruct (truthy (App.message_of err)) eqn:E; [exact E | reflexivity].
  - intros m ->. simpl. destruct (m =? ""); reflexivity.
Qed.

(** X2: the JavaScript normaliser and the TypeScript one agree on
    every axios error, except on an answer whose body is null: there
    the JavaScript one throws a TypeError where the TypeScript one
    returns "Service error". *)
Theorem normalisers_agree :
  forall error : AxiosError,
    match response error with
    | Some {| data := JNull |} =>
        ServiceClientJs.handleServiceError error = ServiceClientJs.TypeErrorThrown
        /\ ServiceError.message (handleServiceError (AxiosErr error))
           = JStr "Service error"
    | _ =>
        ServiceClientJs.handleServiceError error
        = ServiceClientJs.Returned (handleServiceError (AxiosErr error))
    end.
Proof.
  intros [[[code d] |] [c |] m]; simpl; try reflexivity;
    unfold ServiceClientJs.handleServiceError, error_member; simpl;
    destruct d as [| b | n | s | xs | fields]; simpl;
    try (split; reflexivity);
    try match goal with
        | |- context [if ?c then _ else _] => destruct c
        end;
    reflexivity.
Qed.

End ErrorPath.

(* ================================================================== *)
(** * Further properties: the bills routes *)
(* ================================================================== *)

Section BillsRoutes.
Import ServiceClient Express Validation.

Ltac run_bills :=
  unfold App.GET_bills, App.GET_bill, App.POST_bill, App.PUT_bill, App.DELETE_bill,
    App.serve, run, Bills.get_all, Bills.get_by_id, Bills.post, Bills.put, Bills.delete,
    chain, bind.

Lemma spread_objects (xs : list json) :
  (forall x, In x xs -> exists fields, x = JObj fields) -> map spread xs = xs.
Proof.
  induction xs as [| x xs IH]; intros Hobjects; simpl; [reflexivity |].
  destruct (Hobjects x (or_introl eq_refl)) as [fields ->].
  rewrite IH; [reflexivity |].
  intros y Hy. apply Hobjects. right. exact Hy.
Qed.

(** X3: when the request passes validation and the upstream call
    resolves, each bills route answers with what the upstream
    returned, unchanged (200, and 201 with the created id on POST),
    after exactly one upstream call that carries the id of the path
    and the body of the request as they came. *)
Theorem bills_answers_forwarded :
  forall (w : World) (req : Request),
    let id := params_id req in
    let b := req_body req in
    let id_ok := Joi.error (Joi.validate idParamSchema (prop req Params)) = None in
    let body_ok := Joi.error (Joi.validate billSchema (prop req Body)) = None in
    (forall bill, id_ok -> ServiceClient.GET_bill w id = Resolved bill ->
        App.GET_bill w req = ({| status := 200; body := bill |}, [GetBillById id]))
    /\ (forall created, body_ok -> POST_bills w b = Resolved created ->
        App.POST_bill w req
        = ({| status := 201; body := JObj [("id", JNum (CreatedBill.id created))] |},
           [CreateBill b]))
    /\ (forall result, id_ok -> body_ok -> ServiceClient.PUT_bill w id b = Resolved result ->
        App.PUT_bill w req = ({| status := 200; body := result |}, [UpdateBill id b]))
    /\ (forall result, id_ok -> ServiceClient.DELETE_bill w id = Resolved result ->
        App.DELETE_bill w req = ({| status := 200; body := result |}, [DeleteBill id])).
Proof.
  intros w req id b id_ok body_ok. split; [| split; [| split]].
  - intros bill Hid Hcall. run_bills. rewrite (validate_pass _ _ _ _ Hid).
    unfold accountsService.getBillById, attempt. fold id. rewrite Hcall. reflexivity.
  - intros created Hbody Hcall. run_bills. rewrite (validate_pass _ _ _ _ Hbody).
    unfold accountsService.createBill, attempt. fold b. rewrite Hcall. reflexivity.
  - intros result Hid Hbody Hcall. run_bills.
    rewrite (validate_pass _ _ _ _ Hid), (validate_pass _ _ _ _ Hbody).
    unfold accountsService.updateBill, attempt. fold id b. rewrite Hcall. reflexivity.
  - intros result Hid Hcall. run_bills. rewrite (validate_pass _ _ _ _ Hid).
    unfold accountsService.deleteBill, attempt. fold id. rewrite Hcall. reflexivity.
Qed.

Lemma bills_answers_forwarded_witness :
  App.PUT_bill Sample.echo Sample.rent_99
  = ({| status := 200; body := JObj [("message", JStr "Bill updated")] |},
     [UpdateBill "99" (JObj [("title", JStr "Rent")])]).
Proof.
  destruct (bills_answers_forwarded Sample.echo Sample.rent_99) as (_ & _ & Hput & _).
  apply Hput; reflexivity.
Defined.

(** X4: POST /bills has no "Bill not found" override: when createBill
    fails on a valid body, the answer carries the status code and the
    message of the failure as the normaliser of serviceClient.js
    returned it, also when that status code is 404; when the
    normaliser itself throws (an upstream answer whose body is null),
    the answer is 500 with the text of the TypeError.  createBill was
    called once, with the body as received. *)
Theorem post_bill_failure_passed_on :
  forall (w : World) (req : Request) (thrown : Thrown),
    Joi.error (Joi.validate billSchema (prop req Body)) = None ->
    Spec.well_formed thrown ->
    POST_bills w (req_body req) = Rejected thrown ->
    App.POST_bill w req
    = (match ServiceClientJs.caught thrown with
       | ServiceClientJs.Returned e =>
           {| status := ServiceError.statusCode e;
              body := JObj [("error", ServiceError.message e)] |}
       | ServiceClientJs.TypeErrorThrown =>
           {| status := 500;
              body := JObj [("error",
                             JStr "Cannot read properties of null (reading 'error')")] |}
       end,
       [CreateBill (req_body req)]).
Proof.
  intros w req thrown Hbody Hwf Hcall. run_bills.
  rewrite (validate_pass _ _ _ _ Hbody).
  unfold accountsService.createBill, attempt. rewrite Hcall. simpl.
  unfold ret. f_equal. apply caught_passes, Hwf.
Qed.

Lemma post_bill_failure_passed_on_witness :
  App.POST_bill Sample.echo Sample.only_title
  = ({| status := 404; body := JObj [("error", JStr "no rows in result set")] |},
     [CreateBill (JObj [("title", JStr "X")])]).
Proof.
  apply (post_bill_failure_passed_on Sample.echo Sample.only_title Sample.gone);
    [reflexivity | simpl; unfold Spec.http_status; lia | reflexivity].
Defined.

(** X5: GET /bills answers 200 with a copy of every element of the
    upstream array, so an array of objects comes back as it is (the
    empty array included); an upstream answer that is not an array
    ends in 500, and an upstream failure is passed on as the
    normaliser of serviceClient.js returned it, or answered 500 with
    the text of the TypeError when the normaliser itself throws (an
    upstream answer whose body is null).  In each case getAllBills
    was called once. *)
Theorem get_all_bills_outcomes :
  forall (w : World) (req : Request),
    (forall xs, GET_bills w = Resolved (JArr xs) ->
        App.GET_bills w req
        = ({| status := 200; body := JArr (map spread xs) |}, [GetAllBills])
        /\ ((forall x, In x xs -> exists fields, x = JObj fields) ->
            App.GET_bills w req = ({| status := 200; body := JArr xs |}, [GetAllBills])))
    /\ (forall d, GET_bills w = Resolved d -> (forall xs, d <> JArr xs) ->
        status (fst (App.GET_bills w req)) = 500%Z
        /\ snd (App.GET_bills w req) = [GetAllBills])
    /\ (forall thrown, GET_bills w = Rejected thrown -> Spec.well_formed thrown ->
        App.GET_bills w req
        = (match ServiceClientJs.caught thrown with
           | ServiceClientJs.Returned e =>
               {| status := ServiceError.statusCode e;
                  body := JObj [("error", ServiceError.message e)] |}
           | ServiceClientJs.TypeErrorThrown =>
               {| status := 500;
                  body := JObj [("error",
                                 JStr "Cannot read properties of null (reading 'error')")] |}
           end, [GetAllBills])).
Proof.
  intros w req. split; [| split].
  - intros xs Hcall.
    assert (Hcopy : App.GET_bills w req
                    = ({| status := 200; body := JArr (map spread xs) |}, [GetAllBills])).
    { run_bills. unfold accountsService.getAllBills, attempt. rewrite Hcall. reflexivity. }
    split; [exact Hcopy |].
    intros Hobjects. rewrite Hcopy, (spread_objects xs Hobjects). reflexivity.
  - intros d Hcall Hnot. run_bills.
    unfold accountsService.getAllBills, attempt. rewrite Hcall.
    destruct d; try (split; reflexivity).
    exfalso. apply (Hnot xs). reflexivity.
  - intros thrown Hcall Hwf. run_bills.
    unfold accountsService.getAllBills, attempt. rewrite Hcall. simpl.
    unfold ret. f_equal. apply caught_passes, Hwf.
Qed.

Lemma get_all_bills_outcomes_witness :
  App.GET_bills Sample.echo Sample.rent_99
  = ({| status := 200; body := JArr [JObj [("id", JNum 1)]; JObj [("id", JNum 2)]] |},
     [GetAllBills]).
Proof.
  destruct (get_all_bills_outcomes Sample.echo Sample.rent_99) as (Harray & _ & _).
  destruct (Harray _ eq_refl) as [_ Hobjects].
  apply Hobjects.
  intros x [<- | [<- | []]]; eexists; reflexivity.
Defined.

(** X17: an upstream failure whose answer has the body [null] is
    answered 500 on every bills route, with the text of the TypeError
    that the normaliser of serviceClient.js throws when it reads
    [error.response.data.error], whatever the upstream status code
    was: an upstream 404 with such a body is not answered 404 "Bill
    not found".  The one upstream call was made. *)
Theorem null_body_failure_answers_500 :
  forall (w : World) (req : Request) (code : Z) (sent : option ClientRequest)
         (text : string),
    let thrown :=
      AxiosErr {| response := Some {| ServiceClient.status := code; data := JNull |};
                  request := sent;
                  message := text |} in
    let answer :=
      {| status := 500;
         body := JObj [("error", JStr "Cannot read properties of null (reading 'error')")] |} in
    let id := params_id req in
    let b := req_body req in
    let id_ok := Joi.error (Joi.validate idParamSchema (prop req Params)) = None in
    let body_ok := Joi.error (Joi.validate billSchema (prop req Body)) = None in
    (GET_bills w = Rejected thrown -> App.GET_bills w req = (answer, [GetAllBills]))
    /\ (id_ok -> ServiceClient.GET_bill w id = Rejected thrown ->
        App.GET_bill w req = (answer, [GetBillById id]))
    /\ (body_ok -> POST_bills w b = Rejected thrown ->
        App.POST_bill w req = (answer, [CreateBill b]))
    /\ (id_ok -> body_ok -> ServiceClient.PUT_bill w id b = Rejected thrown ->
        App.PUT_bill w req = (answer, [UpdateBill id b]))
    /\ (id_ok -> ServiceClient.DELETE_bill w id = Rejected thrown ->
        App.DELETE_bill w req = (answer, [DeleteBill id])).
Proof.
  intros w req code sent text thrown answer id b id_ok body_ok.
  split; [| split; [| split; [| split]]].
  - intros Hcall. run_bills.
    unfold accountsService.getAllBills, attempt. rewrite Hcall. reflexivity.
  - intros Hid Hcall. run_bills. rewrite (validate_pass _ _ _ _ Hid).
    unfold accountsService.getBillById, attempt. fold id. rewrite Hcall. reflexivity.
  - intros Hbody Hcall. run_bills. rewrite (validate_pass _ _ _ _ Hbody).
    unfold accountsService.createBill, attempt. fold b. rewrite Hcall. reflexivity.
  - intros Hid Hbody Hcall. run_bills.
    rewrite (validate_pass _ _ _ _ Hid), (validate_pass _ _ _ _ Hbody).
    unfold accountsService.updateBill, attempt. fold id b. rewrite Hcall. reflexivity.
  - intros Hid Hcall. run_bills. rewrite (validate_pass _ _ _ _ Hid).
    unfold accountsService.deleteBill, attempt. fold id. rewrite Hcall. reflexivity.
Qed.

Lemma null_body_failure_answers_500_witness :
  App.GET_bill Sample.not_found_null Sample.rent_99
  = ({| status := 500;
        body := JObj [("error", JStr "Cannot read properties of null (reading 'error')")] |},
     [GetBillById "99"]).
Proof.
  destruct (null_body_failure_answers_500 Sample.not_found_null Sample.rent_99 404
              (Some client_request) "Request failed") as (_ & Hget & _).
  apply Hget; reflexivity.
Defined.

(** X6: no bills route retries or fans out: whatever the request and
    whatever the upstream does, each of the five routes makes at most
    one upstream call. *)
Theorem bills_routes_call_once :
  forall (w : World) (req : Request),
    (length (snd (App.GET_bills w req)) <= 1)%nat
    /\ (length (snd (App.GET_bill w req)) <= 1)%nat
    /\ (length (snd (App.POST_bill w req)) <= 1)%nat
    /\ (length (snd (App.PUT_bill w req)) <= 1)%nat
    /\ (length (snd (App.DELETE_bill w req)) <= 1)%nat.
Proof.
  intros w req. run_bills.
  unfold validate, accountsService.getAllBills, accountsService.getBillById,
    accountsService.createBill, accountsService.updateBill, accountsService.deleteBill,
    attempt, Bills.not_found_or_next.
  destruct (Joi.error (Joi.validate idParamSchema (prop req Params)));
    destruct (Joi.error (Joi.validate billSchema (prop req Body)));
    destruct (GET_bills w) as [[] |]; destruct (ServiceClient.GET_bill w _);
    destruct (POST_bills w _); destruct (ServiceClient.PUT_bill w _ _);
    destruct (ServiceClient.DELETE_bill w _);
    repeat match goal with
           | |- context [ServiceClientJs.caught ?t] => destruct (ServiceClientJs.caught t)
           end;
    repeat match goal with
           | |- context [if ?c then _ else _] => destruct c
           end;
    simpl; lia.
Qed.

End BillsRoutes.

(* ================================================================== *)
(** * Further properties: the parser routes *)
(* ================================================================== *)

Section Uploads.
Import ServiceClient Express Multer BillParser.

(** X7: what the upload settings of the parser routes let through.  A
    file part with a file name in the field [image] reaches the
    handler, and parseBillImage is called with its bytes and its
    original name, when its media type starts with "image/" and it
    holds fewer than 5 * 1024 * 1024 bytes.  When the media type does
    not start with "image/" both routes answer 500 with "Only image
    files are allowed", whatever the size; when it does and the file
    holds more than 5 * 1024 * 1024 bytes both answer 500 with "File
    too large".  In both cases nothing is called upstream.  (Nothing
    is said of a file of exactly 5 * 1024 * 1024 bytes.) *)
Theorem upload_gate :
  forall (w : World) (form : Form) (f : File),
    file_part form = Some f ->
    originalname f <> "" ->
    fieldname f = "image" ->
    let turned_down (m : string) : Response * list Call :=
      ({| status := 500; body := JObj [("error", JStr m)] |}, []) in
    (startsWith "image/" (mimetype f) = true -> (size f < 5242880)%Z ->
     single upload "image" form = inr {| file := Some f; body_title := title_field form |}
     /\ snd (App.POST_parse_bill w form) = [ParseBillImage (buffer f) (originalname f)]
     /\ exists rest,
          snd (App.POST_create_bill_from_image w form)
          = ParseBillImage (buffer f) (originalname f) :: rest)
    /\ (startsWith "image/" (mimetype f) = false ->
        App.POST_parse_bill w form = turned_down "Only image files are allowed"
        /\ App.POST_create_bill_from_image w form
           = turned_down "Only image files are allowed")
    /\ (startsWith "image/" (mimetype f) = true -> (5242880 < size f)%Z ->
        App.POST_parse_bill w form = turned_down "File too large"
        /\ App.POST_create_bill_from_image w form = turned_down "File too large").
Proof.
  intros w form f Hpart Hname Hfield turned_down.
  assert (Hsingle :
            single upload "image" form
            = if startsWith "image/" (mimetype f)
              then if (5242880 <=? size f)%Z then inl (ErrorObject "File too large")
                   else inr {| file := Some f; body_title := title_field form |}
              else inl (ErrorObject "Only image files are allowed")).
  { unfold single, upload. rewrite Hpart, Hfield. simpl.
    destruct (String.eqb_spec (originalname f) ""); [contradiction |].
    destruct (startsWith "image/" (mimetype f)); reflexivity. }
  unfold App.POST_parse_bill, App.POST_create_bill_from_image, App.serve, run, bind,
    parse_bill, create_bill_from_image, with_upload.
  rewrite Hsingle. split; [| split].
  - intros -> Hsmall. destruct (Z.leb_spec 5242880 (size f)); [lia |].
    split; [reflexivity |].
    unfold parse_bill_handler, create_bill_from_image_handler. simpl.
    unfold bind, billParserService.parseBillImage, accountsService.createBill, attempt.
    destruct (ServiceClient.POST_parse_bill w (buffer f) (originalname f))
      as [parsed | thrown]; simpl.
    + split; [reflexivity |]. destruct (POST_bills w _); eexists; reflexivity.
    + split; [| exists []]; destruct (ServiceClientJs.caught thrown); reflexivity.
  - intros ->. split; reflexivity.
  - intros -> Hbig. destruct (Z.leb_spec 5242880 (size f)); [| lia].
    split; reflexivity.
Qed.

Lemma upload_gate_witness :
  single upload "image" (Sample.image_only Sample.jpeg)
  = inr {| file := Some Sample.jpeg; body_title := None |}
  /\ snd (App.POST_parse_bill Sample.up (Sample.image_only Sample.jpeg))
     = [ParseBillImage "test image data" "test.jpg"]
  /\ App.POST_parse_bill Sample.up (Sample.image_only Sample.huge_jpeg)
     = ({| status := 500; body := JObj [("error", JStr "File too large")] |}, []).
Proof.
  destruct (upload_gate Sample.up (Sample.image_only Sample.jpeg) Sample.jpeg)
    as ((Hsingle & Hparse & _) & _ & _);
    [reflexivity | discriminate | reflexivity | reflexivity | reflexivity |].
  destruct (upload_gate Sample.up (Sample.image_only Sample.huge_jpeg) Sample.huge_jpeg)
    as (_ & _ & Hlarge); [reflexivity | discriminate | reflexivity |].
  destruct Hlarge as [Hlarge _]; [reflexivity | reflexivity |].
  split; [exact Hsingle | split; [exact Hparse | exact Hlarge]].
Defined.

(** X8: POST /parser/parse-bill with an accepted image calls
    parseBillImage once, with the bytes and the original name of the
    file.  When the call resolves the answer is 200 with the receipt,
    its items (name, quantity, price), total, currency, date and
    merchant as the parser returned them.  When it fails the failure
    is passed on as the normaliser of serviceClient.js returned it,
    without any "not found" override, and when the normaliser itself
    throws (an upstream answer whose body is null) the answer is 500
    with the text of the TypeError. *)
Theorem parse_bill_outcomes :
  forall (w : World) (form : Form) (req : Request) (f : File),
    single upload "image" form = inr req ->
    file req = Some f ->
    let parse := ParseBillImage (buffer f) (originalname f) in
    (forall parsed,
        ServiceClient.POST_parse_bill w (buffer f) (originalname f) = Resolved parsed ->
        exists receipt,
          App.POST_parse_bill w form = ({| status := 200; body := receipt |}, [parse])
          /\ get "items" receipt
             = Some (JArr (map (fun item =>
                                  JObj [("name", JStr (ParsedReceiptItem.name item));
                                        ("quantity", JNum (ParsedReceiptItem.quantity item));
                                        ("price", JNum (ParsedReceiptItem.price item))])
                               (ParsedReceipt.items parsed)))
          /\ get "total" receipt = Some (JNum (ParsedReceipt.total parsed))
          /\ get "currency" receipt = option_map JStr (ParsedReceipt.currency parsed)
          /\ get "date" receipt = option_map JStr (ParsedReceipt.date parsed)
          /\ get "merchant" receipt = option_map JStr (ParsedReceipt.merchant parsed))
    /\ (forall thrown,
        ServiceClient.POST_parse_bill w (buffer f) (originalname f) = Rejected thrown ->
        Spec.well_formed thrown ->
        App.POST_parse_bill w form
        = (match ServiceClientJs.caught thrown with
           | ServiceClientJs.Returned e =>
               {| status := ServiceError.statusCode e;
                  body := JObj [("error", ServiceError.message e)] |}
           | ServiceClientJs.TypeErrorThrown =>
               {| status := 500;
                  body := JObj [("error",
                                 JStr "Cannot read properties of null (reading 'error')")] |}
           end, [parse])).
Proof.
  intros w form req f Hupload Hfile parse.
  unfold App.POST_parse_bill, App.serve, run, bind, parse_bill.
  rewrite (with_upload_accepted _ _ _ Hupload).
  unfold parse_bill_handler. rewrite Hfile.
  unfold bind, billParserService.parseBillImage, attempt.
  split.
  - intros parsed Hcall. rewrite Hcall. exists (ParsedReceipt.to_json parsed).
    split; [reflexivity | apply receipt_members].
  - intros thrown Hcall Hwf. rewrite Hcall. simpl. unfold ret. f_equal.
    apply caught_passes, Hwf.
Qed.

Lemma parse_bill_outcomes_witness :
  (exists receipt,
      App.POST_parse_bill Sample.up (Sample.image_only Sample.jpeg)
      = ({| status := 200; body := receipt |},
         [ParseBillImage "test image data" "test.jpg"])
      /\ get "items" receipt
         = Some (JArr [JObj [("name", JStr "Milk"); ("quantity", JNum 1);
                             ("price", JNum 3.99)]])
      /\ get "total" receipt = Some (JNum 3.99)
      /\ get "currency" receipt = None
      /\ get "date" receipt = Some (JStr "2025-03-15")
      /\ get "merchant" receipt = Some (JStr "Grocery Store"))
  /\ App.POST_parse_bill Sample.down (Sample.image_only Sample.jpeg)
     = ({| status := 503; body := JObj [("error", JStr "Service unavailable")] |},
        [ParseBillImage "test image data" "test.jpg"])
  /\ App.POST_parse_bill Sample.null_body (Sample.image_only Sample.jpeg)
     = ({| status := 500;
           body := JObj [("error",
                          JStr "Cannot read properties of null (reading 'error')")] |},
        [ParseBillImage "test image data" "test.jpg"]).
Proof.
  split; [| split].
  - destruct (parse_bill_outcomes Sample.up (Sample.image_only Sample.jpeg)
                {| file := Some Sample.jpeg; body_title := None |} Sample.jpeg)
      as [Hresolved _]; [reflexivity | reflexivity |].
    apply (Hresolved Sample.milk). reflexivity.
  - destruct (parse_bill_outcomes Sample.down (Sample.image_only Sample.jpeg)
                {| file := Some Sample.jpeg; body_title := None |} Sample.jpeg)
      as [_ Hrejected]; [reflexivity | reflexivity |].
    apply (Hrejected Sample.no_answer); [reflexivity | exact I].
  - destruct (parse_bill_outcomes Sample.null_body (Sample.image_only Sample.jpeg)
                {| file := Some Sample.jpeg; body_title := None |} Sample.jpeg)
      as [_ Hrejected]; [reflexivity | reflexivity |].
    apply (Hrejected (Sample.answered 502 JNull));
      [reflexivity | simpl; unfold Spec.http_status; lia].
Defined.

(** X9: on POST /parser/create-bill-from-image a failure of either
    upstream call ends the request with that failure, as the
    normaliser of serviceClient.js returned it (or 500 with the text
    of the TypeError when the normaliser itself throws, on an upstream
    answer whose body is null): if the parser fails, createBill is
    never called; if createBill fails after the parser answered, the
    parse result is dropped and the answer is the createBill failure,
    not the receipt.  The payload of createBill is the bill with
    title, description, due_date, paid and items as the
    transformation sets them. *)
Theorem create_bill_from_image_failures :
  forall (w : World) (form : Form) (req : Request) (f : File) (thrown : Thrown),
    single upload "image" form = inr req ->
    file req = Some f ->
    Spec.well_formed thrown ->
    let failure :=
      match ServiceClientJs.caught thrown with
      | ServiceClientJs.Returned e =>
          {| status := ServiceError.statusCode e;
             body := JObj [("error", ServiceError.message e)] |}
      | ServiceClientJs.TypeErrorThrown =>
          {| status := 500;
             body := JObj [("error",
                            JStr "Cannot read properties of null (reading 'error')")] |}
      end in
    let parse := ParseBillImage (buffer f) (originalname f) in
    (ServiceClient.POST_parse_bill w (buffer f) (originalname f) = Rejected thrown ->
     App.POST_create_bill_from_image w form = (failure, [parse]))
    /\ (forall parsed,
        ServiceClient.POST_parse_bill w (buffer f) (originalname f) = Resolved parsed ->
        let payload :=
          JObj [("title", JStr (or_default (body_title req) "Bill from receipt image"));
                ("description",
                 JStr ("Created from receipt: "
                       ++ or_default (ParsedReceipt.merchant parsed) "Unknown merchant"));
                ("due_date",
                 JStr (or_default (ParsedReceipt.date parsed) (today (now w))));
                ("paid", JBool false);
                ("items",
                 JArr (map (fun item =>
                              JObj [("name", JStr (ParsedReceiptItem.name item));
                                    ("description", JStr "");
                                    ("amount", JNum (ParsedReceiptItem.price item));
                                    ("quantity", JNum (ParsedReceiptItem.quantity item))])
                           (ParsedReceipt.items parsed)))] in
        POST_bills w payload = Rejected thrown ->
        App.POST_create_bill_from_image w form = (failure, [parse; CreateBill payload])).
Proof.
  intros w form req f thrown Hupload Hfile Hwf failure parse.
  unfold App.POST_create_bill_from_image, App.serve, run, bind, create_bill_from_image.
  rewrite (with_upload_accepted _ _ _ Hupload).
  unfold create_bill_from_image_handler. rewrite Hfile.
  unfold bind, billParserService.parseBillImage, accountsService.createBill, attempt.
  split.
  - intros Hparse. rewrite Hparse. simpl. unfold ret. f_equal.
    apply caught_passes, Hwf.
  - intros parsed Hparse. rewrite Hparse.
    change (billData (or_default (body_title req) "Bill from receipt image") parsed (now w))
      with (toBillInput parsed (body_title req) (now w)).
    rewrite bill_payload. intros Hcreate.
    rewrite Hcreate. simpl. unfold ret. f_equal.
    apply caught_passes, Hwf.
Qed.

Lemma create_bill_from_image_failures_witness :
  let failure :=
    {| status := 503; body := JObj [("error", JStr "Service unavailable")] |} in
  let parse := ParseBillImage "test image data" "test.jpg" in
  App.POST_create_bill_from_image Sample.down (Sample.image_only Sample.jpeg)
  = (failure, [parse])
  /\ App.POST_create_bill_from_image Sample.accounts_down (Sample.image_only Sample.jpeg)
     = (failure,
        [parse;
         CreateBill
           (JObj [("title", JStr "Bill from receipt image");
                  ("description", JStr "Created from receipt: Grocery Store");
                  ("due_date", JStr "2025-03-15");
                  ("paid", JBool false);
                  ("items", JArr [JObj [("name", JStr "Milk");
                                        ("description", JStr "");
                                        ("amount", JNum 3.99);
                                        ("quantity", JNum 1)]])])]).
Proof.
  split.
  - destruct (create_bill_from_image_failures Sample.down (Sample.image_only Sample.jpeg)
                {| file := Some Sample.jpeg; body_title := None |} Sample.jpeg
                Sample.no_answer) as [Hparse _]; [reflexivity | reflexivity | exact I |].
    apply Hparse. reflexivity.
  - destruct (create_bill_from_image_failures Sample.accounts_down
                (Sample.image_only Sample.jpeg)
                {| file := Some Sample.jpeg; body_title := None |} Sample.jpeg
                Sample.no_answer) as [_ Hcreate]; [reflexivity | reflexivity | exact I |].
    apply (Hcreate Sample.milk); reflexivity.
Defined.

(** X10: neither parser route retries: the first makes at most one
    upstream call and the second at most two, whatever the form and
    whatever the upstream does; and a call of createBill is always
    preceded by a call of parseBillImage. *)
Theorem parser_routes_call_bounds :
  forall (w : World) (form : Form),
    (length (snd (App.POST_parse_bill w form)) <= 1)%nat
    /\ (length (snd (App.POST_create_bill_from_image w form)) <= 2)%nat
    /\ (forall payload,
        In (CreateBill payload) (snd (App.POST_create_bill_from_image w form)) ->
        exists bytes name rest,
          snd (App.POST_create_bill_from_image w form)
          = ParseBillImage bytes name :: rest).
Proof.
  intros w form.
  unfold App.POST_parse_bill, App.POST_create_bill_from_image, App.serve, run, bind,
    parse_bill, create_bill_from_image, with_upload.
  destruct (single upload "image" form) as [err | req]; simpl;
    [repeat split; try lia; intros payload [] |].
  unfold parse_bill_handler, create_bill_from_image_handler.
  destruct (file req) as [f |]; simpl;
    [| repeat split; try lia; intros payload []].
  unfold bind, billParserService.parseBillImage, accountsService.createBill, attempt.
  destruct (ServiceClient.POST_parse_bill w (buffer f) (originalname f)) as [parsed | thrown];
    simpl.
  - destruct (POST_bills w _) as [created | thrown];
      [| destruct (ServiceClientJs.caught thrown)]; simpl; repeat split; try lia;
      intros payload _; eexists _, _, _; reflexivity.
  - destruct (ServiceClientJs.caught thrown); simpl; repeat split; try lia;
      intros payload _; eexists _, _, _; reflexivity.
Qed.

End Uploads.

(* ================================================================== *)
(** * Further properties: what the bill schema accepts *)
(* ================================================================== *)

Section Acceptance.
Import ServiceClient Express Validation BillParser.

Lemma each_key_pass (vm : Joi.Schema -> list Joi.PathSeg -> option json -> Joi.Outcome)
    (ab : bool) (p : list Joi.PathSeg) (k : string) (c : Joi.Schema)
    (rest : list (string * Joi.Schema)) (value : list (string * json))
    (v r : option json) :
  assoc k value = v ->
  vm c (p ++ [Joi.Key k])%list v = ([], r) ->
  Joi.each_key vm ab p ((k, c) :: rest) value
  = Joi.each_key vm ab p rest
      (match r with Some z => Joi.set_field k z value | None => value end).
Proof. intros <- H. simpl. rewrite H. reflexivity. Qed.

Lemma each_key_stop (vm : Joi.Schema -> list Joi.PathSeg -> option json -> Joi.Outcome)
    (p : list Joi.PathSeg) (k : string) (c : Joi.Schema)
    (rest : list (string * Joi.Schema)) (value : list (string * json))
    (v r : option json) (d : Joi.Detail) (es : list Joi.Detail) :
  assoc k value = v ->
  vm c (p ++ [Joi.Key k])%list v = (d :: es, r) ->
  Joi.each_key vm true p ((k, c) :: rest) value = (d :: es, value).
Proof. intros <- H. simpl. rewrite H. reflexivity. Qed.

Lemma each_item_pass (vm : Joi.Schema -> list Joi.PathSeg -> option json -> Joi.Outcome)
    (ab : bool) (p : list Joi.PathSeg) (it : Joi.Schema) (xs : list json) :
  (forall i x, In x xs -> vm it (p ++ [Joi.Index i])%list (Some x) = ([], Some x)) ->
  forall i, Joi.each_item vm ab p it i xs = ([], xs).
Proof.
  induction xs as [| x xs IH]; intros Hall i; simpl; [reflexivity |].
  rewrite (Hall i x (or_introl eq_refl)).
  rewrite IH; [reflexivity |].
  intros j y Hy. apply Hall. right. exact Hy.
Qed.

Ltac pass_key tac :=
  erewrite each_key_pass;
    [| cbn [assoc String.eqb Ascii.eqb Bool.eqb]; reflexivity | tac];
  cbn [Joi.set_field String.eqb Ascii.eqb Bool.eqb].

Lemma required_string_ok (ab : bool) (q : list Joi.PathSeg) (s : string) :
  s <> "" ->
  Joi.validate_at ab (Joi.string |> Joi.required) q (Some (JStr s)) = ([], Some (JStr s)).
Proof.
  intros Hs. simpl. unfold Joi.presence. simpl.
  destruct (String.eqb_spec s ""); [contradiction | reflexivity].
Qed.

Lemma description_ok (ab : bool) (q : list Joi.PathSeg) (s : string) :
  Joi.validate_at ab (Joi.string |> Joi.allow [Joi.PStr ""; Joi.PNull]) q (Some (JStr s))
  = ([], Some (JStr s)).
Proof. simpl. unfold Joi.presence. simpl. destruct s; reflexivity. Qed.

Lemma due_date_ok (ab : bool) (q : list Joi.PathSeg) (s : string) :
  Joi.test due_date_pattern s = true ->
  Joi.validate_at ab (Joi.string |> Joi.pattern due_date_pattern) q (Some (JStr s))
  = ([], Some (JStr s)).
Proof.
  intros Hs.
  cbn [Joi.validate_at Joi.pattern Joi.string Joi.presence Joi.valids Joi.no_flags existsb].
  destruct (String.eqb_spec s "") as [-> | _]; [discriminate Hs |].
  rewrite Hs. reflexivity.
Qed.

Lemma due_date_wrong (q : list Joi.PathSeg) (s : string) :
  s <> "" ->
  Joi.test due_date_pattern s = false ->
  exists d,
    Joi.validate_at true (Joi.string |> Joi.pattern due_date_pattern) q (Some (JStr s))
    = ([d], Some (JStr s))
    /\ Joi.path d = q.
Proof.
  intros Hne Hs.
  cbn [Joi.validate_at Joi.pattern Joi.string Joi.presence Joi.valids Joi.no_flags existsb].
  destruct (String.eqb_spec s ""); [contradiction |].
  rewrite Hs. eexists. split; reflexivity.
Qed.

Lemma paid_ok (ab : bool) (q : list Joi.PathSeg) (b : bool) :
  Joi.validate_at ab (Joi.boolean |> Joi.default (JBool false)) q (Some (JBool b))
  = ([], Some (JBool b)).
Proof. reflexivity. Qed.

Lemma amount_ok (ab : bool) (q : list Joi.PathSeg) (n : Q) :
  Joi.unsafe n = false -> Qle_bool 0 n = true ->
  Joi.validate_at ab (Joi.number |> Joi.required |> Joi.min 0) q (Some (JNum n))
  = ([], Some (JNum n)).
Proof.
  intros Hsafe Hmin. simpl. unfold Joi.presence. simpl. rewrite Hsafe.
  change (inject_Z 0) with 0%Q. rewrite Hmin. reflexivity.
Qed.

Lemma quantity_ok (ab : bool) (q : list Joi.PathSeg) (n : Q) :
  Joi.unsafe n = false -> Joi.is_integer n = true -> Qle_bool 1 n = true ->
  Joi.validate_at ab (Joi.number |> Joi.integer |> Joi.min 1 |> Joi.default (JNum 1)) q
    (Some (JNum n))
  = ([], Some (JNum n)).
Proof.
  intros Hsafe Hint Hmin. simpl. unfold Joi.presence. simpl. rewrite Hsafe, Hint.
  change (inject_Z 1) with 1%Q. rewrite Hmin. reflexivity.
Qed.

(** The bill item made of a billable receipt item is valid as it is. *)
Lemma bill_item_ok (ab : bool) (q : list Joi.PathSeg) (i : ParsedReceiptItem.t) :
  Spec.billable_item i ->
  let x := BillItemInput.to_json (item_as_specified i) in
  Joi.validate_at ab billItemSchema q (Some x) = ([], Some x).
Proof.
  intros (Hname & Hsafe & Hmin & Hsafe' & Hint & Hmin'). cbv zeta.
  destruct i as [n qty price]. simpl in Hname, Hsafe, Hmin, Hsafe', Hint, Hmin'.
  unfold billItemSchema, Joi.object, item_as_specified, BillItemInput.to_json.
  cbn [member option_map app ParsedReceiptItem.name ParsedReceiptItem.price
       ParsedReceiptItem.quantity BillItemInput.name BillItemInput.description
       BillItemInput.amount BillItemInput.quantity].
  cbn [Joi.validate_at Joi.presence Joi.valids Joi.no_flags existsb].
  pass_key ltac:(apply required_string_ok; exact Hname).
  pass_key ltac:(apply description_ok).
  pass_key ltac:(apply amount_ok; assumption).
  pass_key ltac:(apply quantity_ok; assumption).
  cbn [Joi.each_key]. destruct ab; reflexivity.
Qed.

Lemma bill_items_ok (ab : bool) (q : list Joi.PathSeg) (its : list ParsedReceiptItem.t) :
  Forall Spec.billable_item its ->
  let x := JArr (map BillItemInput.to_json (map item_as_specified its)) in
  Joi.validate_at ab (Joi.array |> Joi.items billItemSchema) q (Some x) = ([], Some x).
Proof.
  intros Hall x. unfold x.
  cbn [Joi.validate_at Joi.array Joi.items Joi.presence Joi.valids Joi.no_flags existsb].
  rewrite each_item_pass; [reflexivity |].
  intros i y Hy.
  apply in_map_iff in Hy as (b & <- & Hb).
  apply in_map_iff in Hb as (item & <- & Hitem).
  apply bill_item_ok. rewrite Forall_forall in Hall. apply Hall, Hitem.
Qed.

Lemma or_default_nonempty (s : option string) (d : string) :
  d <> "" -> or_default s d <> "".
Proof.
  intros Hd. destruct s as [v |]; simpl; [| exact Hd].
  destruct (String.eqb_spec v ""); assumption.
Qed.

(** The due date of the bill of a well dated receipt matches the
    pattern. *)
Lemma due_date_of_well_dated (p : ParsedReceipt.t) (now : Date.t) :
  Spec.well_dated p now ->
  Joi.test due_date_pattern (or_default (ParsedReceipt.date p) (today now)) = true.
Proof.
  unfold Spec.well_dated. rewrite today_date_string.
  destruct (ParsedReceipt.date p) as [d |]; simpl;
    [destruct (d =? "") |]; intros H; try exact H; apply date_string_matches, H.
Qed.

(** X11: the bill that create-bill-from-image builds from a receipt
    is one the bill schema accepts, and accepts unchanged (nothing to
    convert, no default to fill in), whenever every receipt item has
    a name that is not empty, a price of at least 0 and an integer
    quantity of at least 1, price and quantity both within the
    library's safe range (at most 2^53 - 1), and the receipt's date,
    if it is there and not empty, has the form YYYY-MM-DD; when the
    receipt has no date, or an empty one, the clock must show a
    calendar day of a year from 0 to 9999, so that the date of today
    has that form.  The title and the description never stand in the
    way: the handler makes both non-empty. *)
Theorem built_bill_is_valid :
  forall (parsed : ParsedReceipt.t) (title : option string) (now : Date.t),
    Forall Spec.billable_item (ParsedReceipt.items parsed) ->
    Spec.well_dated parsed now ->
    let payload := BillInput.to_json (toBillInput parsed title now) in
    Joi.validate billSchema payload
    = {| Joi.value := Some payload; Joi.error := None |}.
Proof.
  intros parsed title now Hitems Hdate payload.
  unfold Joi.validate, Joi.validate_with.
  assert (H : Joi.validate_at true billSchema [] (Some payload) = ([], Some payload));
    [| rewrite H; reflexivity].
  unfold payload, toBillInput, billData, BillInput.to_json, billSchema, Joi.object.
  cbn [member option_map app BillInput.title BillInput.description BillInput.due_date
       BillInput.paid BillInput.items].
  cbn [Joi.validate_at Joi.presence Joi.valids Joi.no_flags existsb].
  pass_key ltac:(apply required_string_ok, or_default_nonempty; discriminate).
  pass_key ltac:(apply description_ok).
  pass_key ltac:(apply due_date_ok, due_date_of_well_dated, Hdate).
  pass_key ltac:(apply paid_ok).
  pass_key ltac:(apply (bill_items_ok true); exact Hitems).
  reflexivity.
Qed.

Lemma built_bill_is_valid_witness :
  let payload := BillInput.to_json Sample.milk_bill in
  Joi.validate billSchema payload = {| Joi.value := Some payload; Joi.error := None |}.
Proof.
  apply (built_bill_is_valid Sample.milk None Sample.noon).
  - repeat constructor. discriminate.
  - reflexivity.
Defined.

(** X12: create-bill-from-image does not validate the bill it builds:
    a receipt date that is not of the form YYYY-MM-DD becomes the due
    date as it is, and createBill is called with a payload that the
    bill schema, and so POST /bills, turns down for its due_date. *)
Theorem unvalidated_bill_forwarded :
  forall (w : World) (form : Multer.Form) (req : Multer.Request) (f : Multer.File)
         (parsed : ParsedReceipt.t) (d : string),
    Multer.single upload "image" form = inr req ->
    Multer.file req = Some f ->
    ServiceClient.POST_parse_bill w (Multer.buffer f) (Multer.originalname f)
    = Resolved parsed ->
    ParsedReceipt.date parsed = Some d ->
    d <> "" ->
    Joi.test due_date_pattern d = false ->
    let payload :=
      BillInput.to_json (toBillInput parsed (Multer.body_title req) (now w)) in
    get "due_date" payload = Some (JStr d)
    /\ (exists detail,
          Joi.error (Joi.validate billSchema payload) = Some [detail]
          /\ Joi.path detail = [Joi.Key "due_date"])
    /\ snd (App.POST_create_bill_from_image w form)
       = [ParseBillImage (Multer.buffer f) (Multer.originalname f); CreateBill payload].
Proof.
  intros w form req f parsed d Hupload Hfile Hparse Hdate Hne Hwrong payload.
  assert (Hdue : or_default (ParsedReceipt.date parsed) (today (now w)) = d).
  { rewrite Hdate. simpl. destruct (String.eqb_spec d ""); [contradiction | reflexivity]. }
  split; [| split].
  - unfold payload, toBillInput, billData, BillInput.to_json. simpl. rewrite Hdue.
    reflexivity.
  - destruct (due_date_wrong [Joi.Key "due_date"] d Hne Hwrong) as (detail & Hdetail & Hpath).
    exists detail. split; [| exact Hpath].
    unfold Joi.validate, Joi.validate_with.
    assert (H : Joi.validate_at true billSchema [] (Some payload)
                = ([detail], Some payload)); [| rewrite H; reflexivity].
    unfold payload, toBillInput, billData, BillInput.to_json, billSchema, Joi.object.
    cbn [member option_map app BillInput.title BillInput.description BillInput.due_date
         BillInput.paid BillInput.items].
    cbn [Joi.validate_at Joi.presence Joi.valids Joi.no_flags existsb].
    pass_key ltac:(apply required_string_ok, or_default_nonempty; discriminate).
    pass_key ltac:(apply description_ok).
    erewrite each_key_stop;
      [reflexivity
      | cbn [assoc String.eqb Ascii.eqb Bool.eqb]; reflexivity
      | rewrite Hdue; exact Hdetail].
  - unfold App.POST_create_bill_from_image, App.serve, run, bind, create_bill_from_image.
    rewrite (with_upload_accepted _ _ _ Hupload).
    unfold create_bill_from_image_handler. rewrite Hfile.
    unfold bind, billParserService.parseBillImage, accountsService.createBill, attempt.
    rewrite Hparse.
    change (billData (or_default (Multer.body_title req) "Bill from receipt image")
              parsed (now w))
      with (toBillInput parsed (Multer.body_title req) (now w)).
    fold payload. destruct (POST_bills w payload); reflexivity.
Qed.

Lemma unvalidated_bill_forwarded_witness :
  exists payload,
    get "due_date" payload = Some (JStr "15/03/2025")
    /\ (exists detail,
          Joi.error (Joi.validate billSchema payload) = Some [detail]
          /\ Joi.path detail = [Joi.Key "due_date"])
    /\ snd (App.POST_create_bill_from_image Sample.till (Sample.image_only Sample.jpeg))
       = [ParseBillImage "test image data" "test.jpg"; CreateBill payload].
Proof.
  eexists.
  apply (unvalidated_bill_forwarded Sample.till (Sample.image_only Sample.jpeg)
           {| Multer.file := Some Sample.jpeg; Multer.body_title := None |} Sample.jpeg
           Sample.till_dated "15/03/2025");
    solve [reflexivity | discriminate].
Defined.

End Acceptance.

(* ================================================================== *)
(** * Further properties: path ids *)
(* ================================================================== *)

Section PathIds.
Import ServiceClient Express Validation.

Ltac digit_step :=
  cbn [NilEmpty.string_of_uint Joi.digits_value Pos.of_uint_acc Pos.of_uint];
  try match goal with
      | |- context [Z.of_nat ?t] =>
          let v := eval vm_compute in (Z.of_nat t) in change (Z.of_nat t) with v
      end.

Lemma digits_acc (u : Decimal.uint) :
  forall acc : positive,
    Joi.digits_value (Zpos acc) (NilEmpty.string_of_uint u) = Zpos (Pos.of_uint_acc u acc).
Proof.
  induction u; intros acc; digit_step; try reflexivity;
    match goal with
    | |- Joi.digits_value ?a _ = Zpos (Pos.of_uint_acc _ ?b) =>
        replace a with (Zpos b) by lia; apply IHu
    end.
Qed.

Lemma digits_zero (u : Decimal.uint) :
  Joi.digits_value 0 (NilEmpty.string_of_uint u) = Z.of_N (Pos.of_uint u).
Proof.
  induction u; digit_step; try reflexivity; try exact IHu;
    match goal with
    | |- Joi.digits_value ?a _ = _ =>
        let v := eval vm_compute in a in change a with v; apply digits_acc
    end.
Qed.

Lemma span_all (pr : ascii -> bool) (s : string) :
  every pr s = true -> Joi.span pr s = (s, "").
Proof.
  induction s as [| c s IH]; simpl; [reflexivity |].
  intros H. apply andb_true_iff in H as [Hc Hs]. rewrite Hc, (IH Hs). reflexivity.
Qed.

Lemma digit_not_space (c : ascii) : is_digit c = true -> is_space c = false.
Proof.
  destruct c as [[] [] [] [] [] [] [] []]; intros H; solve [discriminate H | reflexivity].
Qed.

Lemma digit_not_sign (c : ascii) (s : string) :
  is_digit c = true -> Joi.read_sign (String c s) = (1%Z, String c s).
Proof.
  destruct c as [[] [] [] [] [] [] [] []]; intros H; solve [discriminate H | reflexivity].
Qed.

Lemma append_empty (s : string) : s ++ "" = s.
Proof. induction s as [| c s IH]; simpl; [| rewrite IH]; reflexivity. Qed.

Lemma scale_integer (m : Z) : Joi.scale m (0 - Z.of_nat 0) = inject_Z m.
Proof. unfold Joi.scale. simpl. rewrite Z.mul_1_r. reflexivity. Qed.

(** A string of digits, with or without a minus sign, is read as the
    integer it spells. *)
Lemma decimal_of_digits (ds : string) :
  ds <> "" -> every is_digit ds = true ->
  Joi.decimal_of_string ds = Some (inject_Z (Joi.digits_value 0 ds))
  /\ Joi.decimal_of_string (String "-" ds) = Some (inject_Z (- Joi.digits_value 0 ds)).
Proof.
  intros Hne Hds. destruct ds as [| c s]; [contradiction |].
  pose proof Hds as Hc. simpl in Hc. apply andb_true_iff in Hc as [Hc _].
  split; unfold Joi.decimal_of_string.
  - cbn [Joi.span]. rewrite (digit_not_space c Hc), (digit_not_sign c s Hc).
    rewrite (span_all _ _ Hds). cbn [append String.length Joi.span].
    rewrite append_empty, scale_integer, Z.mul_1_l. reflexivity.
  - replace (Joi.span is_space (String "-" (String c s)))
      with ("", String "-" (String c s)) by reflexivity.
    cbn [Joi.read_sign].
    rewrite (span_all _ _ Hds). cbn [append String.length Joi.span].
    rewrite append_empty, scale_integer.
    replace (-1 * Joi.digits_value 0 (String c s))%Z
      with (- Joi.digits_value 0 (String c s))%Z by lia.
    reflexivity.
Qed.

Lemma string_of_uint_nonempty (u : Decimal.uint) :
  u <> Decimal.Nil -> NilEmpty.string_of_uint u <> "".
Proof. destruct u; simpl; intros H; solve [contradiction | discriminate]. Qed.

(** Reading the decimal numeral of an integer gives the integer
    back. *)
Lemma decimal_of_numeral (z : Z) :
  Joi.decimal_of_string (Joi.string_of_Z z) = Some (inject_Z z).
Proof.
  unfold Joi.string_of_Z, NilZero.string_of_int.
  destruct z as [| p | p]; [reflexivity | |]; simpl Z.to_int; cbv iota;
    unfold NilZero.string_of_uint;
    pose proof (Unsigned.to_uint_nonnil p) as Hnil;
    pose proof (digits_zero (Pos.to_uint p)) as Hvalue;
    rewrite Unsigned.of_to in Hvalue; simpl in Hvalue;
    destruct (decimal_of_digits (NilEmpty.string_of_uint (Pos.to_uint p))
                (string_of_uint_nonempty _ Hnil) (uint_digits _)) as [Hpos Hneg];
    rewrite Hvalue in Hpos, Hneg;
    destruct (Pos.to_uint p); try contradiction; assumption.
Qed.

(** *** Integers among the Numbers *)

Lemma shifted_integer (c e : Z) :
  (0 <= e)%Z -> Number.shifted c 1 e = (c, 2 ^ e)%Z.
Proof.
  intros He. unfold Number.shifted.
  destruct (Z.leb_spec 0 e); [| lia]. rewrite Z.mul_1_l. reflexivity.
Qed.

Lemma exponent_integer (c : Z) : (1 <= c)%Z -> Number.exponent c 1 = Z.log2 c.
Proof.
  intros Hc. unfold Number.exponent. change (Z.log2 1) with 0%Z. rewrite Z.sub_0_r.
  rewrite shifted_integer by apply Z.log2_nonneg.
  destruct (Z.log2_spec c) as [Hlow _]; [lia |].
  destruct (Z.leb_spec (2 ^ Z.log2 c) c); [reflexivity | lia].
Qed.

Lemma round_exact (n : Z) : Number.round_half_even n 1 = n.
Proof.
  unfold Number.round_half_even. rewrite Z.mod_1_r, Z.div_1_r. reflexivity.
Qed.

Lemma Qred_integer (c : Z) : Qred (inject_Z c) = inject_Z c.
Proof.
  unfold Qred, inject_Z.
  pose proof (Z.ggcd_gcd c 1) as Hg. pose proof (Z.ggcd_correct_divisors c 1) as Hd.
  destruct (Z.ggcd c 1) as [g [aa bb]]. simpl in *.
  rewrite Z.gcd_1_r in Hg. subst g. destruct Hd as [Ha Hb].
  rewrite Z.mul_1_l in Ha, Hb. subst aa bb. reflexivity.
Qed.

Lemma scaled_integer (c k : Z) :
  (0 < k)%Z ->
  Number.scaled (c * 2 ^ k) (- k) = inject_Z c.
Proof.
  intros Hk. unfold Number.scaled.
  destruct (Z.leb_spec 0 (- k)); [lia |].
  rewrite Z.opp_involutive.
  assert (Hpos : (0 < 2 ^ k)%Z) by (apply Z.pow_pos_nonneg; lia).
  rewrite <- (Qred_integer c).
  apply Qred_complete. unfold Qeq, inject_Z. simpl.
  rewrite Z2Pos.id by exact Hpos. lia.
Qed.

(** An integer below [2 ^ 53] is a Number. *)
Lemma nearest_pos_small (c : Z) :
  (1 <= c < 2 ^ 53)%Z -> Number.nearest_pos c 1 = Some (inject_Z c).
Proof.
  intros [Hlow Hhigh]. unfold Number.nearest_pos.
  rewrite exponent_integer by exact Hlow.
  assert (He : (0 <= Z.log2 c < 53)%Z).
  { split; [apply Z.log2_nonneg |]. apply Z.log2_lt_pow2; lia. }
  rewrite Z.max_l by lia.
  destruct (Z.eq_dec (Z.log2 c) 52) as [E | E].
  - rewrite E. change (52 - 52)%Z with 0%Z.
    change (Number.shifted c 1 0) with (c, 1%Z). lazy beta iota zeta.
    rewrite round_exact, Z.add_0_r.
    destruct (Z.leb_spec 1024 (Z.log2 c)); [lia |].
    unfold Number.scaled. simpl. rewrite Z.mul_1_r. reflexivity.
  - remember (52 - Z.log2 c)%Z as k eqn:Hk.
    replace (Z.log2 c - 52)%Z with (- k)%Z by lia.
    assert (Hkpos : (0 < k)%Z) by lia.
    unfold Number.shifted.
    destruct (Z.leb_spec 0 (- k)); [lia |]. lazy beta iota zeta.
    rewrite Z.opp_involutive, round_exact.
    assert (Hm : (Z.log2 (c * 2 ^ k) < 53 + k)%Z).
    { apply Z.log2_lt_pow2.
      - apply Z.mul_pos_pos; [lia | apply Z.pow_pos_nonneg; lia].
      - rewrite Z.pow_add_r by lia.
        apply Z.mul_lt_mono_pos_r; [apply Z.pow_pos_nonneg; lia | lia]. }
    destruct (Z.leb_spec 1024 (Z.log2 (c * 2 ^ k) + - k)); [lia |].
    rewrite scaled_integer by lia. reflexivity.
Qed.

(** An integer from [2 ^ 53] on is read as a Number that is not below
    [2 ^ 53]. *)
Lemma nearest_pos_large (c : Z) (y : Q) :
  (2 ^ 53 <= c)%Z -> Number.nearest_pos c 1 = Some y ->
  exists m : Z, y = inject_Z m /\ (2 ^ 53 <= m)%Z.
Proof.
  intros Hc. unfold Number.nearest_pos.
  rewrite exponent_integer by lia.
  assert (He : (53 <= Z.log2 c)%Z) by (apply Z.log2_le_pow2; lia).
  rewrite Z.max_l by lia.
  set (s := (Z.log2 c - 52)%Z).
  rewrite shifted_integer by (unfold s; lia). lazy beta iota zeta.
  destruct (_ <=? _)%Z; [discriminate |].
  intros [= <-]. unfold Number.scaled.
  destruct (Z.leb_spec 0 s); [| unfold s in *; lia].
  eexists. split; [reflexivity |].
  assert (Hpow : (0 < 2 ^ s)%Z) by (apply Z.pow_pos_nonneg; lia).
  assert (Hm : (2 ^ 52 <= Number.round_half_even c (2 ^ s))%Z).
  { assert (Hq : (2 ^ 52 <= c / 2 ^ s)%Z).
    { apply Z.div_le_lower_bound; [exact Hpow |].
      rewrite <- Z.pow_add_r by (unfold s; lia).
      replace (s + 52)%Z with (Z.log2 c) by (unfold s; lia).
      apply Z.log2_spec. lia. }
    unfold Number.round_half_even.
    destruct (_ ?= _)%Z; [destruct (Z.even _) | |]; lia. }
  replace (2 ^ 53)%Z with (2 ^ 52 * 2 ^ 1)%Z by reflexivity.
  apply Z.mul_le_mono_nonneg; try lia.
  apply Z.pow_le_mono_r; unfold s; lia.
Qed.

Lemma nearest_product (c e : Z) :
  (0 <= e)%Z -> (1 <= c)%Z ->
  Number.nearest (inject_Z c * Number.pow10 e) = Number.nearest_pos (c * 10 ^ e) 1.
Proof.
  intros He Hc. unfold Number.pow10.
  destruct (Z.leb_spec 0 e); [| lia].
  unfold Number.nearest. simpl.
  assert (Hv : (0 < c * 10 ^ e)%Z)
    by (apply Z.mul_pos_pos; [lia | apply Z.pow_pos_nonneg; lia]).
  destruct (c * 10 ^ e)%Z; try lia. reflexivity.
Qed.

Lemma Qeq_bool_integers (a b : Z) : Qeq_bool (inject_Z a) (inject_Z b) = (a =? b)%Z.
Proof.
  unfold Qeq_bool, inject_Z. simpl. rewrite !Z.mul_1_r. reflexivity.
Qed.

(** No multiple of a power of ten other than [z] itself is read back
    as [z], when [z] is below [2 ^ 53]. *)
Lemma round_trips_integer (z c e : Z) :
  (1 <= z < 2 ^ 53)%Z -> (0 <= e)%Z -> (1 <= c)%Z ->
  Number.round_trips (inject_Z z) c e = (c * 10 ^ e =? z)%Z.
Proof.
  intros Hz He Hc. unfold Number.round_trips.
  rewrite nearest_product by assumption.
  assert (Hv : (1 <= c * 10 ^ e)%Z).
  { assert (0 < 10 ^ e)%Z by (apply Z.pow_pos_nonneg; lia). nia. }
  destruct (Z.lt_ge_cases (c * 10 ^ e) (2 ^ 53)) as [Hsmall | Hlarge].
  - rewrite nearest_pos_small by lia. apply Qeq_bool_integers.
  - destruct (Number.nearest_pos (c * 10 ^ e) 1) as [y |] eqn:E.
    + destruct (nearest_pos_large _ _ Hlarge E) as (m & -> & Hm).
      rewrite Qeq_bool_integers.
      destruct (Z.eqb_spec m z), (Z.eqb_spec (c * 10 ^ e) z); lia || reflexivity.
    + destruct (Z.eqb_spec (c * 10 ^ e) z); [lia | reflexivity].
Qed.

Lemma Qlt_bool_integer (z n : Z) :
  (0 <= n)%Z -> Number.Qlt_bool (inject_Z z) (Number.pow10 n) = (z <? 10 ^ n)%Z.
Proof.
  intros Hn. unfold Number.Qlt_bool, Number.pow10.
  destruct (Z.leb_spec 0 n); [| lia].
  unfold Qle_bool, inject_Z. simpl. rewrite !Z.mul_1_r.
  rewrite Z.ltb_antisym. reflexivity.
Qed.

Lemma magnitude_up_integer (z : Z) (fuel : nat) :
  forall n : Z,
    (1 <= n)%Z -> (10 ^ (n - 1) <= z < 10 ^ (n + Z.of_nat fuel))%Z ->
    let r := Number.magnitude_up fuel n (inject_Z z) in
    (n <= r)%Z /\ (10 ^ (r - 1) <= z < 10 ^ r)%Z.
Proof.
  induction fuel as [| fuel IH]; intros n Hn Hz; cbn [Number.magnitude_up].
  - simpl. rewrite Z.add_0_r in Hz. lia.
  - rewrite Qlt_bool_integer by lia.
    destruct (Z.ltb_spec z (10 ^ n)) as [Hlt | Hge]; [simpl; lia |].
    specialize (IH (n + 1)%Z).
    replace (n + 1 - 1)%Z with n in IH by lia.
    destruct IH as [IH1 IH2]; [lia | |].
    + split; [exact Hge |].
      replace (n + 1 + Z.of_nat fuel)%Z with (n + Z.of_nat (S fuel))%Z by lia. apply Hz.
    + simpl. split; [lia | exact IH2].
Qed.

Lemma magnitude_integer (z : Z) :
  (1 <= z < 2 ^ 53)%Z ->
  let n := Number.magnitude (inject_Z z) in
  (1 <= n <= 16)%Z /\ (10 ^ (n - 1) <= z < 10 ^ n)%Z.
Proof.
  intros Hz. unfold Number.magnitude.
  replace (Qle_bool 1 (inject_Z z)) with true.
  2:{ symmetry. unfold Qle_bool, inject_Z. simpl. apply Z.leb_le. lia. }
  destruct (magnitude_up_integer z 400 1) as [Hn Hr]; [lia | |].
  - simpl (1 - 1)%Z. simpl (10 ^ 0)%Z. split; [lia |].
    assert (2 ^ 53 < 10 ^ (1 + Z.of_nat 400))%Z by (vm_compute; reflexivity). lia.
  - cbv zeta in *. split; [| exact Hr]. split; [lia |].
    destruct (Z.le_gt_cases (Number.magnitude_up 400 1 (inject_Z z)) 16) as [H | H];
      [exact H |].
    assert (10 ^ 16 <= 10 ^ (Number.magnitude_up 400 1 (inject_Z z) - 1))%Z
      by (apply Z.pow_le_mono_r; lia).
    assert (2 ^ 53 < 10 ^ 16)%Z by (vm_compute; reflexivity). lia.
Qed.

Lemma floor_scaled (z e : Z) :
  (0 <= e)%Z ->
  Qfloor (inject_Z z * Number.pow10 (- e)) = (z / 10 ^ e)%Z
  /\ Qceiling (inject_Z z * Number.pow10 (- e)) = (- ((- z) / 10 ^ e))%Z.
Proof.
  intros He. unfold Number.pow10, Qceiling.
  assert (Hpos : (0 < 10 ^ e)%Z) by (apply Z.pow_pos_nonneg; lia).
  destruct (Z.leb_spec 0 (- e)) as [H0 | H0].
  - assert (e = 0%Z) by lia. subst e. simpl. rewrite !Z.mul_1_r, !Z.div_1_r. split; reflexivity.
  - rewrite Z.opp_involutive. unfold Qfloor, Qopp, Qmult, inject_Z. simpl.
    rewrite Z2Pos.id by exact Hpos. rewrite !Z.mul_1_r.
    split; reflexivity.
Qed.

(** The digits of an integer below [2 ^ 53], without the zeros it
    ends in, are the shortest that are read back as it. *)
Lemma shortest_integer (z n : Z) :
  (1 <= z < 2 ^ 53)%Z -> (10 ^ (n - 1) <= z < 10 ^ n)%Z ->
  forall (fuel : nat) (k : Z),
    (1 <= k <= n)%Z -> (n < k + Z.of_nat fuel)%Z ->
    exists c k',
      Number.shortest fuel k (inject_Z z) n = (c, k')
      /\ (k <= k' <= n)%Z /\ (c * 10 ^ (n - k') = z)%Z.
Proof.
  intros Hz Hn. induction fuel as [| fuel IH]; intros k Hk Hfuel; [lia |].
  cbn [Number.shortest]. unfold Number.digits_at.
  destruct (floor_scaled z (n - k)) as [Hfloor Hceiling]; [lia |].
  rewrite Hfloor, Hceiling.
  assert (Hpos : (0 < 10 ^ (n - k))%Z) by (apply Z.pow_pos_nonneg; lia).
  assert (Hle : (10 ^ (n - k) <= z)%Z).
  { apply Z.le_trans with (10 ^ (n - 1))%Z; [apply Z.pow_le_mono_r; lia | lia]. }
  assert (Hlo : (1 <= z / 10 ^ (n - k))%Z).
  { apply Z.div_le_lower_bound; lia. }
  destruct (Z.eq_dec (z mod 10 ^ (n - k)) 0) as [Hexact | Hrest].
  - assert (Hz' : (z / 10 ^ (n - k) * 10 ^ (n - k) = z)%Z).
    { pose proof (Z.div_mod z (10 ^ (n - k))). lia. }
    assert (Hhi : (- (- z / 10 ^ (n - k)) = z / 10 ^ (n - k))%Z).
    { rewrite Z.div_opp_l_z by lia. lia. }
    rewrite Hhi.
    rewrite round_trips_integer by lia.
    rewrite Hz', Z.eqb_refl.
    exists (z / 10 ^ (n - k))%Z, k.
    split; [| split; [lia | exact Hz']].
    destruct (_ ?= _)%Q; [destruct (Z.even _) | |]; reflexivity.
  - assert (Hhi : (- (- z / 10 ^ (n - k)) = z / 10 ^ (n - k) + 1)%Z).
    { rewrite Z.div_opp_l_nz by lia. lia. }
    rewrite Hhi.
    pose proof (Z.div_mod z (10 ^ (n - k)) ltac:(lia)) as Hdm.
    pose proof (Z.mod_pos_bound z (10 ^ (n - k)) Hpos) as Hbound.
    rewrite !round_trips_integer by lia.
    destruct (Z.eqb_spec (z / 10 ^ (n - k) * 10 ^ (n - k)) z); [lia |].
    destruct (Z.eqb_spec ((z / 10 ^ (n - k) + 1) * 10 ^ (n - k)) z); [lia |].
    assert (Hk' : (k < n)%Z).
    { destruct (Z.eq_dec k n) as [-> | ]; [| lia].
      rewrite Z.sub_diag in Hrest. simpl in Hrest. rewrite Z.mod_1_r in Hrest. lia. }
    destruct (IH (k + 1)%Z) as (c & k' & Hs & Hk'' & Hc); [lia | lia |].
    exists c, k'. split; [exact Hs | split; [lia | exact Hc]].
Qed.

Lemma toString_pos_integer (z : Z) :
  (1 <= z < 2 ^ 53)%Z -> Number.toString_pos (inject_Z z) = Joi.string_of_Z z.
Proof.
  intros Hz. unfold Number.toString_pos.
  destruct (magnitude_integer z Hz) as [Hn Hmag].
  set (n := Number.magnitude (inject_Z z)) in *.
  destruct (shortest_integer z n Hz Hmag 17 1) as (c & k & -> & Hk & Hc); [lia | lia |].
  assert (Hpos : (0 < 10 ^ (n - k))%Z) by (apply Z.pow_pos_nonneg; lia).
  destruct (Z.eqb_spec c (10 ^ k)) as [-> | _].
  - rewrite <- Z.pow_add_r in Hc by lia.
    replace (k + (n - k))%Z with n in Hc by lia. lia.
  - destruct (Z.leb_spec k n); [| lia].
    destruct (Z.leb_spec n 21); [| lia].
    simpl. rewrite Hc. reflexivity.
Qed.

Lemma toString_integer (z : Z) :
  (- 2 ^ 53 < z < 2 ^ 53)%Z -> Number.toString (inject_Z z) = Joi.string_of_Z z.
Proof.
  intros Hz. unfold Number.toString.
  destruct z as [| p | p]; cbn [Qnum inject_Z].
  - reflexivity.
  - apply toString_pos_integer. lia.
  - change (- inject_Z (Z.neg p))%Q with (inject_Z (Z.pos p)).
    rewrite toString_pos_integer by lia.
    reflexivity.
Qed.

Lemma nearest_integer (z : Z) :
  (- 2 ^ 53 < z < 2 ^ 53)%Z -> Number.nearest (inject_Z z) = Some (inject_Z z).
Proof.
  intros Hz. unfold Number.nearest.
  destruct z as [| p | p]; cbn [Qnum Qden inject_Z].
  - reflexivity.
  - apply nearest_pos_small. lia.
  - rewrite nearest_pos_small by lia. reflexivity.
Qed.


Lemma every_none (p q : ascii -> bool) (s : string) :
  (forall c, p c = true -> q c = false) ->
  every p s = true -> Joi.some q s = false.
Proof.
  intros Hpq. induction s as [| c s IH]; simpl; [reflexivity |].
  intros H. apply andb_true_iff in H as [Hc Hs].
  rewrite (Hpq c Hc), (IH Hs). reflexivity.
Qed.

Lemma drop_end_kept (p q : ascii -> bool) (s : string) :
  (forall c, p c = true -> q c = false) ->
  every p s = true -> Joi.drop_end q s = s.
Proof.
  intros Hpq. induction s as [| c s IH]; [reflexivity |].
  intros H. pose proof H as H'. simpl in H'. apply andb_true_iff in H' as [Hc Hs].
  cbn [Joi.drop_end every]. rewrite (Hpq c Hc). simpl. rewrite (IH Hs). reflexivity.
Qed.

Lemma drop_point_zeros_kept (s : string) :
  Joi.some Joi.is_point s = false -> Joi.drop_point_zeros s = s.
Proof.
  induction s as [| c s IH]; simpl; [reflexivity |].
  intros H. apply orb_false_iff in H as [Hc Hs].
  rewrite Hc, (IH Hs). reflexivity.
Qed.

Lemma unorm_leading_zero (u v : Decimal.uint) :
  Decimal.unorm u = Decimal.D0 v -> v = Decimal.Nil.
Proof.
  induction u; simpl; intros H; try discriminate H;
    [injection H as <-; reflexivity | apply IHu, H].
Qed.

(** The numeral of a positive number: digits, the first of them not a
    zero. *)
Lemma positive_numeral (p : positive) :
  exists c ds,
    NilEmpty.string_of_uint (Pos.to_uint p) = String c ds
    /\ is_digit c = true /\ Ascii.eqb c "0" = false /\ every is_digit ds = true.
Proof.
  pose proof (Unsigned.to_uint_nonnil p) as Hnil.
  assert (Hnorm : Decimal.unorm (Pos.to_uint p) = Pos.to_uint p).
  { rewrite <- (Unsigned.to_of (Pos.to_uint p)) at 2 || idtac.
    pose proof (Unsigned.to_of (Pos.to_uint p)) as H.
    rewrite Unsigned.of_to in H. simpl in H. symmetry. exact H. }
  pose proof (uint_digits (Pos.to_uint p)) as Hds.
  destruct (Pos.to_uint p) as [| d | d | d | d | d | d | d | d | d | d] eqn:E;
    try contradiction;
    try (eexists; eexists; split; [reflexivity |];
         simpl in Hds; repeat split; solve [reflexivity | exact Hds]).
  exfalso.
  rewrite (unorm_leading_zero _ _ Hnorm) in E.
  pose proof (Unsigned.of_to p) as H. rewrite E in H. discriminate H.
Qed.


Lemma string_of_Z_canonical (z : Z) : Spec.canonical (Joi.string_of_Z z).
Proof.
  destruct z as [| p | p]; [apply Spec.canonical_zero | |];
    destruct (positive_numeral p) as (c & ds & E & Hc & Hnz & Hds);
    unfold Joi.string_of_Z, NilZero.string_of_int, NilZero.string_of_uint; simpl Z.to_int;
    cbv iota; destruct (Pos.to_uint p); try discriminate E; rewrite E.
  all: try (apply Spec.canonical_positive; assumption).
  all: try (apply Spec.canonical_negative; assumption).
Qed.

Lemma digit_plain (c : ascii) :
  is_digit c = true ->
  is_space c = false /\ Joi.is_e c = false /\ Joi.is_point c = false.
Proof.
  destruct c as [[] [] [] [] [] [] [] []]; intros H;
    solve [discriminate H | repeat split].
Qed.

Lemma digits_plain (ds : string) :
  every is_digit ds = true ->
  Joi.drop_end is_space ds = ds /\ Joi.some Joi.is_e ds = false
  /\ Joi.some Joi.is_point ds = false.
Proof.
  intros H. repeat split.
  - apply (drop_end_kept is_digit); [apply digit_plain | exact H].
  - apply (every_none is_digit); [apply digit_plain | exact H].
  - apply (every_none is_digit); [apply digit_plain | exact H].
Qed.

(** A canonical numeral has nothing to trim, no exponent, and is its
    own normal form. *)
Lemma canonical_plain (s : string) :
  Spec.canonical s ->
  Joi.trim s = s /\ Joi.some Joi.is_e s = false /\ Joi.normalizeDecimal s = s.
Proof.
  intros [| c ds Hc Hnz Hds | c ds Hc Hnz Hds]; [repeat split | |];
    destruct (digits_plain ds Hds) as (Hend & He & Hpoint);
    pose proof (drop_point_zeros_kept ds Hpoint) as Hzeros;
    destruct c as [[] [] [] [] [] [] [] []]; try discriminate Hc; try discriminate Hnz;
    unfold Joi.trim, Joi.normalizeDecimal;
    cbn [Joi.drop_while Joi.drop_end Joi.some Joi.drop_point_zeros Joi.after_minus
         Joi.zero_before_point Joi.drop_leading_zeros every is_space Joi.is_e Joi.is_point
         Joi.is_zero is_digit nat_of_ascii Ascii.eqb Bool.eqb andb orb negb String.eqb
         Nat.leb Nat.eqb];
    simpl; rewrite ?Hend, ?He, ?Hpoint, ?Hzeros; simpl; rewrite ?Hpoint;
    repeat split; reflexivity.
Qed.

Lemma coerce_integer (z : Z) :
  (- 2 ^ 53 < z < 2 ^ 53)%Z ->
  Joi.coerce_number (JStr (Joi.string_of_Z z)) = Joi.Kept (JNum (inject_Z z)).
Proof.
  intros Hz. unfold Joi.coerce_number.
  destruct (canonical_plain _ (string_of_Z_canonical z)) as (Htrim & He & Hnormal).
  rewrite decimal_of_numeral, nearest_integer by exact Hz.
  rewrite Htrim, He, (toString_integer z Hz), He, Hnormal, String.eqb_refl.
  reflexivity.
Qed.


Lemma safe_integer (z : Z) :
  (- Joi.MAX_SAFE_INTEGER <= z <= Joi.MAX_SAFE_INTEGER)%Z ->
  Joi.unsafe (inject_Z z) = false /\ Joi.is_integer (inject_Z z) = true.
Proof.
  intros [Hlow Hhigh]. split.
  - unfold Joi.unsafe. apply orb_false_iff. split; apply negb_false_iff;
      apply Qle_bool_iff; rewrite <- Zle_Qle; assumption.
  - unfold Joi.is_integer. simpl. rewrite Z.mod_1_r. reflexivity.
Qed.

Lemma integer_id_valid (z : Z) :
  (- Joi.MAX_SAFE_INTEGER <= z <= Joi.MAX_SAFE_INTEGER)%Z ->
  Joi.validate idParamSchema (JObj [("id", JStr (Joi.string_of_Z z))])
  = {| Joi.value := Some (JObj [("id", JNum (inject_Z z))]); Joi.error := None |}.
Proof.
  intros Hz. destruct (safe_integer z Hz) as [Hsafe Hint].
  unfold Joi.validate, Joi.validate_with, idParamSchema, Joi.object.
  cbn [Joi.validate_at Joi.presence Joi.valids Joi.no_flags existsb Joi.each_key assoc
       String.eqb Ascii.eqb Bool.eqb app Joi.number Joi.integer Joi.required
       Joi.with_flags Joi.flags Joi.presence_required option_map].
  rewrite coerce_integer by (unfold Joi.MAX_SAFE_INTEGER in Hz; lia).
  cbn [Joi.converted Joi.presence Joi.valids existsb]. rewrite Hsafe.
  cbn [Joi.check_rules Joi.check_rule app]. rewrite Hint. reflexivity.
Qed.

(** X14: an id that is the decimal numeral of an integer within the
    safe range (zero and negative integers included) passes the id
    validation; the validation reads it as that number, and the
    handlers of GET and DELETE /bills/{id} still call the upstream
    with the string of the path, once. *)
Theorem integer_id_reaches_upstream :
  forall (w : World) (req : Request) (z : Z),
    (- Joi.MAX_SAFE_INTEGER <= z <= Joi.MAX_SAFE_INTEGER)%Z ->
    params_id req = Joi.string_of_Z z ->
    Joi.validate idParamSchema (prop req Params)
    = {| Joi.value := Some (JObj [("id", JNum (inject_Z z))]); Joi.error := None |}
    /\ snd (App.GET_bill w req) = [GetBillById (Joi.string_of_Z z)]
    /\ snd (App.DELETE_bill w req) = [DeleteBill (Joi.string_of_Z z)].
Proof.
  intros w req z Hz Hid.
  assert (Hvalid : Joi.validate idParamSchema (prop req Params)
                   = {| Joi.value := Some (JObj [("id", JNum (inject_Z z))]);
                        Joi.error := None |}).
  { simpl. rewrite Hid. apply integer_id_valid, Hz. }
  assert (Hpass : Joi.error (Joi.validate idParamSchema (prop req Params)) = None)
    by (rewrite Hvalid; reflexivity).
  split; [exact Hvalid |].
  unfold App.GET_bill, App.DELETE_bill, App.serve, run, Bills.get_by_id, Bills.delete,
    chain, bind.
  rewrite !(validate_pass _ _ _ _ Hpass).
  unfold accountsService.getBillById, accountsService.deleteBill, attempt,
    Bills.not_found_or_next.
  rewrite Hid.
  split.
  - destruct (ServiceClient.GET_bill w _) as [bill | thrown]; [reflexivity |].
    destruct (ServiceClientJs.caught thrown); [destruct (_ =? 404)%Z |]; reflexivity.
  - destruct (ServiceClient.DELETE_bill w _) as [result | thrown]; [reflexivity |].
    destruct (ServiceClientJs.caught thrown); [destruct (_ =? 404)%Z |]; reflexivity.
Qed.

Lemma integer_id_reaches_upstream_witness :
  Joi.validate idParamSchema (JObj [("id", JStr "42")])
  = {| Joi.value := Some (JObj [("id", JNum 42)]); Joi.error := None |}
  /\ snd (App.GET_bill Sample.up Sample.bill_42) = [GetBillById "42"]
  /\ snd (App.DELETE_bill Sample.up Sample.bill_42) = [DeleteBill "42"].
Proof.
  apply (integer_id_reaches_upstream Sample.up Sample.bill_42 42);
    [unfold Joi.MAX_SAFE_INTEGER; lia | reflexivity].
Defined.

End PathIds.

(* ================================================================== *)
(** * Further properties: the bill schema and the bill interface *)
(* ================================================================== *)

Section TypedBills.
Import ServiceClient Express Validation.

Ltac step_key tac :=
  erewrite each_key_pass;
    [| cbn [assoc String.eqb Ascii.eqb Bool.eqb]; reflexivity | tac];
  cbn [Joi.set_field String.eqb Ascii.eqb Bool.eqb].

Lemma append_associative (a b c : string) : (a ++ b) ++ c = a ++ (b ++ c).
Proof. induction a as [| x a IH]; simpl; [| rewrite IH]; reflexivity. Qed.

Lemma clean_outcome (o : Joi.Outcome) : fst o = [] -> o = ([], snd o).
Proof. destruct o as [es r]. simpl. intros ->. reflexivity. Qed.

Lemma failed_outcome (o : Joi.Outcome) (d : Joi.Detail) (es : list Joi.Detail) :
  fst o = d :: es -> o = (d :: es, snd o).
Proof. destruct o as [es' r]. simpl. intros ->. reflexivity. Qed.

Lemma description_absent (ab : bool) (q : list Joi.PathSeg) :
  Joi.validate_at ab (Joi.string |> Joi.allow [Joi.PStr ""; Joi.PNull]) q None = ([], None).
Proof. reflexivity. Qed.

Lemma due_date_absent (ab : bool) (q : list Joi.PathSeg) :
  Joi.validate_at ab (Joi.string |> Joi.pattern due_date_pattern) q None = ([], None).
Proof. reflexivity. Qed.

Lemma paid_absent (ab : bool) (q : list Joi.PathSeg) :
  Joi.validate_at ab (Joi.boolean |> Joi.default (JBool false)) q None
  = ([], Some (JBool false)).
Proof. reflexivity. Qed.

Lemma quantity_absent (ab : bool) (q : list Joi.PathSeg) :
  Joi.validate_at ab (Joi.number |> Joi.integer |> Joi.min 1 |> Joi.default (JNum 1)) q None
  = ([], Some (JNum 1)).
Proof. reflexivity. Qed.

Lemma items_absent (ab : bool) (q : list Joi.PathSeg) :
  Joi.validate_at ab (Joi.array |> Joi.items billItemSchema) q None = ([], None).
Proof. reflexivity. Qed.

Lemma amount_below_zero (q : list Joi.PathSeg) (n : Q) :
  Joi.unsafe n = false -> Qle_bool 0 n = false ->
  Joi.validate_at true (Joi.number |> Joi.required |> Joi.min 0) q (Some (JNum n))
  = ([Joi.report q "number.min" " must be greater than or equal to 0"], Some (JNum n)).
Proof.
  intros Hsafe Hmin. simpl. unfold Joi.presence. simpl. rewrite Hsafe.
  change (inject_Z 0) with 0%Q. rewrite Hmin. reflexivity.
Qed.

Lemma each_item_clean (vm : Joi.Schema -> list Joi.PathSeg -> option json -> Joi.Outcome)
    (ab : bool) (p : list Joi.PathSeg) (it : Joi.Schema) (xs : list json) :
  (forall i x, In x xs -> fst (vm it (p ++ [Joi.Index i])%list (Some x)) = []) ->
  forall i, fst (Joi.each_item vm ab p it i xs) = [].
Proof.
  induction xs as [| x xs IH]; intros Hall i; simpl; [reflexivity |].
  rewrite (clean_outcome _ (Hall i x (or_introl eq_refl))).
  specialize (IH (fun j y Hy => Hall j y (or_intror Hy)) (S i)).
  destruct (Joi.each_item vm ab p it (S i) xs) as [es rs]. exact IH.
Qed.

Lemma each_item_stop (vm : Joi.Schema -> list Joi.PathSeg -> option json -> Joi.Outcome)
    (p : list Joi.PathSeg) (it : Joi.Schema) (good rest : list json) (y : json)
    (d : Joi.Detail) (es : list Joi.Detail) :
  (forall i x, In x good -> fst (vm it (p ++ [Joi.Index i])%list (Some x)) = []) ->
  forall i,
    fst (vm it (p ++ [Joi.Index (i + length good)])%list (Some y)) = d :: es ->
    fst (Joi.each_item vm true p it i (good ++ y :: rest)%list) = d :: es.
Proof.
  induction good as [| x good IH]; intros Hgood i Hbad.
  - simpl in Hbad |- *. rewrite Nat.add_0_r in Hbad.
    rewrite (failed_outcome _ _ _ Hbad). reflexivity.
  - simpl app. simpl Joi.each_item.
    rewrite (clean_outcome _ (Hgood i x (or_introl eq_refl))).
    assert (Hrest : fst (Joi.each_item vm true p it (S i) (good ++ y :: rest)%list)
                    = d :: es).
    { apply IH.
      - intros j z Hz. apply Hgood. right. exact Hz.
      - simpl in Hbad. rewrite Nat.add_succ_r in Hbad. exact Hbad. }
    destruct (Joi.each_item vm true p it (S i) (good ++ y :: rest)%list) as [es' rs].
    exact Hrest.
Qed.

(** An item within the rules of the item schema passes it, whichever
    optional members it carries. *)
Lemma valid_item_clean (ab : bool) (q : list Joi.PathSeg) (i : BillItemInput.t) :
  Spec.valid_item i ->
  fst (Joi.validate_at ab billItemSchema q (Some (BillItemInput.to_json i))) = [].
Proof.
  intros (Hname & Hsafe & Hmin & Hqty).
  destruct i as [n d a qty]. simpl in Hname, Hsafe, Hmin, Hqty.
  unfold billItemSchema, Joi.object, BillItemInput.to_json.
  destruct d as [d |]; destruct qty as [k |];
    try destruct Hqty as (Hsafe' & Hint & Hmin');
    cbn [member option_map app BillItemInput.name BillItemInput.description
         BillItemInput.amount BillItemInput.quantity];
    cbn [Joi.validate_at Joi.presence Joi.valids Joi.no_flags existsb];
    step_key ltac:(apply required_string_ok; exact Hname);
    step_key ltac:(first [apply description_ok | apply description_absent]);
    step_key ltac:(apply amount_ok; assumption);
    step_key ltac:(first [apply quantity_ok; assumption | apply quantity_absent]);
    cbn [Joi.each_key]; destruct ab; reflexivity.
Qed.

(** An item with a name and a negative amount is turned down for its
    amount. *)
Lemma negative_item_stops (q : list Joi.PathSeg) (i : BillItemInput.t) :
  BillItemInput.name i <> "" ->
  Joi.unsafe (BillItemInput.amount i) = false ->
  Qle_bool 0 (BillItemInput.amount i) = false ->
  fst (Joi.validate_at true billItemSchema q (Some (BillItemInput.to_json i)))
  = [Joi.report (q ++ [Joi.Key "amount"]) "number.min"
       " must be greater than or equal to 0"].
Proof.
  intros Hname Hsafe Hmin.
  destruct i as [n d a qty]. simpl in Hname, Hsafe, Hmin.
  unfold billItemSchema, Joi.object, BillItemInput.to_json.
  destruct d as [d |]; destruct qty as [k |];
    cbn [member option_map app BillItemInput.name BillItemInput.description
         BillItemInput.amount BillItemInput.quantity];
    cbn [Joi.validate_at Joi.presence Joi.valids Joi.no_flags existsb];
    step_key ltac:(apply required_string_ok; exact Hname);
    step_key ltac:(first [apply description_ok | apply description_absent]);
    (erewrite each_key_stop;
      [reflexivity
      | cbn [assoc String.eqb Ascii.eqb Bool.eqb]; reflexivity
      | apply amount_below_zero; assumption]).
Qed.

Lemma valid_items_clean (ab : bool) (q : list Joi.PathSeg) (its : list BillItemInput.t) :
  Forall Spec.valid_item its ->
  fst (Joi.validate_at ab (Joi.array |> Joi.items billItemSchema) q
         (Some (JArr (map BillItemInput.to_json its)))) = [].
Proof.
  intros Hall.
  cbn [Joi.validate_at Joi.array Joi.items Joi.presence Joi.valids Joi.no_flags existsb].
  assert (Hclean : fst (Joi.each_item (Joi.validate_at ab) ab q billItemSchema 0
                          (map BillItemInput.to_json its)) = []).
  { apply each_item_clean.
    intros i y Hy. apply in_map_iff in Hy as (b & <- & Hb).
    apply valid_item_clean. rewrite Forall_forall in Hall. apply Hall, Hb. }
  destruct (Joi.each_item (Joi.validate_at ab) ab q billItemSchema 0
              (map BillItemInput.to_json its)) as [es ys].
  exact Hclean.
Qed.

Lemma valid_bill_clean (b : BillInput.t) :
  Spec.valid_bill b ->
  Joi.error (Joi.validate billSchema (BillInput.to_json b)) = None.
Proof.
  intros (Htitle & Hdue & Hitems).
  destruct b as [t d due p its]. simpl in Htitle, Hdue, Hitems.
  unfold Joi.validate, Joi.validate_with.
  assert (H : fst (Joi.validate_at true billSchema []
                     (Some (BillInput.to_json
                              {| BillInput.title := t; BillInput.description := d;
                                 BillInput.due_date := due; BillInput.paid := p;
                                 BillInput.items := its |}))) = []).
  { unfold billSchema, Joi.object, BillInput.to_json.
    destruct d as [d |]; destruct due as [due |]; destruct p as [p |];
      destruct its as [its |];
      cbn [member option_map app BillInput.title BillInput.description
           BillInput.due_date BillInput.paid BillInput.items];
      cbn [Joi.validate_at Joi.presence Joi.valids Joi.no_flags existsb];
      step_key ltac:(apply required_string_ok; exact Htitle);
      step_key ltac:(first [apply description_ok | apply description_absent]);
      step_key ltac:(first [apply due_date_ok; exact Hdue | apply due_date_absent]);
      step_key ltac:(first [apply paid_ok | apply paid_absent]);
      step_key ltac:(first [apply clean_outcome, valid_items_clean; exact Hitems
                           | apply items_absent]);
      cbn [Joi.each_key]; reflexivity. }
  rewrite (clean_outcome _ H). reflexivity.
Qed.

(** X15: a bill as the interface types it (BillInput) is accepted by
    the bill schema whenever its title is not empty, its due date, if
    present, has the form YYYY-MM-DD, and each item, if any, has a
    name that is not empty, an amount of at least 0 and, if present,
    an integer quantity of at least 1, amount and quantity both
    within the library's safe range (at most 2^53 - 1); descriptions
    and the paid flag are free, and every optional member may be
    absent.  POST /bills then calls the upstream once, with the body
    as received. *)
Theorem typed_bill_accepted :
  forall (w : World) (req : Request) (b : BillInput.t),
    Spec.valid_bill b ->
    req_body req = BillInput.to_json b ->
    Joi.error (Joi.validate billSchema (req_body req)) = None
    /\ snd (App.POST_bill w req) = [CreateBill (BillInput.to_json b)].
Proof.
  intros w req b Hvalid Hbody.
  assert (Hpass : Joi.error (Joi.validate billSchema (prop req Body)) = None).
  { simpl. rewrite Hbody. apply valid_bill_clean, Hvalid. }
  split; [exact Hpass |].
  unfold App.POST_bill, App.serve, run, Bills.post, chain, bind.
  rewrite (validate_pass _ _ _ _ Hpass).
  unfold accountsService.createBill, attempt. rewrite Hbody.
  destruct (POST_bills w _); reflexivity.
Qed.

Lemma typed_bill_accepted_witness :
  Joi.error (Joi.validate billSchema (BillInput.to_json Sample.new_bill)) = None
  /\ snd (App.POST_bill Sample.up
            (Sample.bills_request "" (BillInput.to_json Sample.new_bill)))
     = [CreateBill (BillInput.to_json Sample.new_bill)].
Proof.
  apply (typed_bill_accepted Sample.up
           (Sample.bills_request "" (BillInput.to_json Sample.new_bill)) Sample.new_bill);
    [| reflexivity].
  split; [discriminate |]. split; [reflexivity |].
  repeat constructor; discriminate.
Defined.

(** X16: validation of the items stops at the first item in error and
    names it by its index.  For a bill as the interface types it, with
    a title that is not empty and a due date that, if present, has the
    form YYYY-MM-DD: when the items before some item are within the
    rules of the item schema, and that item has a name and an amount
    that is negative but not below -(2^53 - 1), POST /bills answers
    400 with the one message for [items[i].amount], i the number of
    items before it, whatever follows in the list, and calls
    nothing. *)
Theorem first_bad_item_reported :
  forall (w : World) (req : Request) (b : BillInput.t)
         (good rest : list BillItemInput.t) (bad : BillItemInput.t),
    BillInput.title b <> "" ->
    match BillInput.due_date b with
    | Some d => Joi.test due_date_pattern d = true
    | None => True
    end ->
    BillInput.items b = Some (good ++ bad :: rest)%list ->
    Forall Spec.valid_item good ->
    BillItemInput.name bad <> "" ->
    Joi.unsafe (BillItemInput.amount bad) = false ->
    Qle_bool 0 (BillItemInput.amount bad) = false ->
    req_body req = BillInput.to_json b ->
    App.POST_bill w req
    = ({| status := 400;
          body := JObj [("error",
                         JStr (Joi.dquote ++ "items["
                               ++ NilZero.string_of_uint (Nat.to_uint (length good))
                               ++ "].amount" ++ Joi.dquote
                               ++ " must be greater than or equal to 0"))] |},
       []).
Proof.
  intros w req b good rest bad Ht Hdue Hits Hgood Hname Hsafe Hmin Hbody.
  set (d := Joi.report [Joi.Key "items"; Joi.Index (length good); Joi.Key "amount"]
              "number.min" " must be greater than or equal to 0").
  assert (Hitems :
            fst (Joi.validate_at true (Joi.array |> Joi.items billItemSchema)
                   [Joi.Key "items"]
                   (Some (JArr (map BillItemInput.to_json (good ++ bad :: rest)%list))))
            = [d]).
  { cbn [Joi.validate_at Joi.array Joi.items Joi.presence Joi.valids Joi.no_flags existsb].
    rewrite map_app. simpl map.
    assert (Hstop :
              fst (Joi.each_item (Joi.validate_at true) true [Joi.Key "items"]
                     billItemSchema 0
                     (map BillItemInput.to_json good
                      ++ BillItemInput.to_json bad :: map BillItemInput.to_json rest)%list)
              = [d]).
    { apply each_item_stop.
      - intros i y Hy. apply in_map_iff in Hy as (x & <- & Hx).
        apply valid_item_clean. rewrite Forall_forall in Hgood. apply Hgood, Hx.
      - rewrite length_map. simpl Nat.add.
        rewrite (negative_item_stops _ bad Hname Hsafe Hmin). reflexivity. }
    destruct (Joi.each_item (Joi.validate_at true) true [Joi.Key "items"] billItemSchema 0
                (map BillItemInput.to_json good
                 ++ BillItemInput.to_json bad :: map BillItemInput.to_json rest)%list)
      as [es ys].
    exact Hstop. }
  assert (Hfail : Joi.error (Joi.validate billSchema (prop req Body)) = Some [d]).
  { simpl prop. rewrite Hbody.
    unfold Joi.validate, Joi.validate_with.
    assert (H : fst (Joi.validate_at true billSchema [] (Some (BillInput.to_json b)))
                = [d]).
    { destruct b as [t description due p its]. simpl in Ht, Hdue, Hits. subst its.
      unfold billSchema, Joi.object, BillInput.to_json.
      destruct description as [description |]; destruct due as [due |];
        destruct p as [p |];
        cbn [member option_map app BillInput.title BillInput.description
             BillInput.due_date BillInput.paid BillInput.items];
        cbn [Joi.validate_at Joi.presence Joi.valids Joi.no_flags existsb];
        step_key ltac:(apply required_string_ok; exact Ht);
        step_key ltac:(first [apply description_ok | apply description_absent]);
        step_key ltac:(first [apply due_date_ok; exact Hdue | apply due_date_absent]);
        step_key ltac:(first [apply paid_ok | apply paid_absent]);
        (erewrite each_key_stop;
          [reflexivity
          | cbn [assoc String.eqb Ascii.eqb Bool.eqb]; reflexivity
          | apply failed_outcome; exact Hitems]). }
    rewrite (failed_outcome _ _ _ H). reflexivity. }
  unfold App.POST_bill, App.serve, run, Bills.post, chain, bind.
  rewrite (validate_fail _ _ _ _ _ Hfail).
  unfold ret, rejection, d. simpl. unfold Joi.string_of_nat.
  rewrite !append_associative. reflexivity.
Qed.

Lemma first_bad_item_reported_witness :
  App.POST_bill Sample.up
    (Sample.bills_request "" (BillInput.to_json Sample.bill_with_refund))
  = ({| status := 400;
        body := JObj [("error",
                       JStr (Joi.dquote ++ "items[1].amount" ++ Joi.dquote
                             ++ " must be greater than or equal to 0"))] |},
     []).
Proof.
  exact (first_bad_item_reported Sample.up
           (Sample.bills_request "" (BillInput.to_json Sample.bill_with_refund))
           Sample.bill_with_refund
           [ {| BillItemInput.name := "Item 1";
                BillItemInput.description := None;
                BillItemInput.amount := 10.99;
                BillItemInput.quantity := None |} ]
           [] Sample.refund
           ltac:(discriminate) eq_refl eq_refl
           ltac:(repeat constructor; discriminate)
           ltac:(discriminate) eq_refl eq_refl eq_refl).
Defined.

End TypedBills.
